(** * rapid_analysis: the image examiner

    A shallow embedding of [lsst.rapid.analysis.imageExaminer] and of the
    helpers of [lsst.rapid.analysis.utils] it calls: the cutout bounding box
    with its shrink-and-retry correction, the centroid refinement, the radial
    samples, the encircled-energy table and the fit bookkeeping of the
    statistics structure.

    Numbers.  Pixel coordinates and box geometry are integers ([Z]).  Pixel
    values are finite numbers, taken as exact rationals ([Q]); a quantity
    that the code obtains by a division, and everything computed from it,
    lives in [fnum], the rationals extended with the two infinities and
    not-a-number, so that a division by zero is what numpy makes of it and
    not an undefined value.  A radius is the square root of a rational and
    is kept as such ([radius]); [toR] gives the real number it stands for.
    Rounding errors and overflow of the machine formats are not modelled. *)

From Stdlib Require Import Rbase R_sqrt Qreals Lra.
From Stdlib Require Import ZArith QArith Qround Qabs Lia Lqa.
From stdpp Require Import gmap strings list fin_maps sorting.

Open Scope Z_scope.

(** ** Outcomes of a Python call *)

Inductive Exn : Type :=
| RuntimeError (msg : string)
| AssertionError (msg : string)
| ValueError (msg : string)
| OverflowError (msg : string)
| LengthError (msg : string)
| IndexError (msg : string)
| AttributeError (name : string).

(** [RecursionError] is what the interpreter raises at its recursion limit;
    here it is what a recursive method returns when its fuel is spent. *)
Inductive Result (A : Type) : Type :=
| Ok (a : A)
| Raise (e : Exn)
| RecursionError.

Arguments Ok {A} a.
Arguments Raise {A} e.
Arguments RecursionError {A}.

Definition bindR {A B : Type} (r : Result A) (k : A -> Result B) : Result B :=
  match r with
  | Ok a => k a
  | Raise e => Raise e
  | RecursionError => RecursionError
  end.

Notation "x <-? r ; k" := (bindR r (fun x => k))
  (at level 20, r at level 100, k at level 200, only parsing).

(** ** Numbers produced by floating-point expressions *)

Inductive fnum : Type :=
| Fin (q : Q)
| PInf
| NInf
| NaN.

Definition fneg (a : fnum) : fnum :=
  match a with
  | Fin q => Fin (- q)%Q
  | PInf => NInf
  | NInf => PInf
  | NaN => NaN
  end.

Definition fadd (a b : fnum) : fnum :=
  match a, b with
  | NaN, _ | _, NaN => NaN
  | Fin p, Fin q => Fin (p + q)%Q
  | PInf, NInf | NInf, PInf => NaN
  | PInf, _ | _, PInf => PInf
  | NInf, _ | _, NInf => NInf
  end.

Definition fsub (a b : fnum) : fnum := fadd a (fneg b).

Definition fabs (a : fnum) : fnum :=
  match a with
  | Fin q => Fin (Qabs q)
  | PInf | NInf => PInf
  | NaN => NaN
  end.

(** Division of two finite numbers as numpy does it: a zero divisor gives an
    infinity of the sign of the dividend, and not-a-number for 0/0. *)
Definition fdiv (a b : Q) : fnum :=
  if Qeq_bool b 0 then
    if Qeq_bool a 0 then NaN
    else if Qle_bool 0 a then PInf else NInf
  else Fin (a / b)%Q.

(** [a >= b] on floating-point values: false whenever a not-a-number is
    compared. *)
Definition fge (a b : fnum) : bool :=
  match a, b with
  | NaN, _ | _, NaN => false
  | PInf, _ => true
  | _, NInf => true
  | Fin p, Fin q => Qle_bool q p
  | Fin _, PInf => false
  | NInf, _ => false
  end.

Definition isnan (a : fnum) : bool :=
  match a with NaN => true | _ => false end.

Definition ofZ (z : Z) : fnum := Fin (inject_Z z).

(** A centroid is a pair (x, y) of floating-point pixel coordinates. *)
Definition Centroid : Type := fnum * fnum.

(** ** lsst.geom: integer points and boxes

    The library is not part of the repository; [Box2I] follows its
    documented behaviour: a box is a minimum corner and dimensions, every
    empty box is the box at the origin with dimensions (0, 0), [dilatedBy]
    grows the box by a buffer on every side and [clippedTo] intersects. *)

Module geom.

Record Box2I : Type := mkBox2I { minimum : Z * Z; dimensions : Z * Z }.

Definition emptyBox : Box2I := mkBox2I (0, 0) (0, 0).

(** [Box2I(corner, dimensions)]. *)
Definition Box2I_ (corner dims : Z * Z) : Box2I :=
  if (dims.1 <=? 0) || (dims.2 <=? 0) then emptyBox else mkBox2I corner dims.

Definition isEmpty (b : Box2I) : bool :=
  ((dimensions b).1 =? 0) && ((dimensions b).2 =? 0).

Definition getDimensions (b : Box2I) : Z * Z := dimensions b.
Definition getWidth (b : Box2I) : Z := (dimensions b).1.
Definition getHeight (b : Box2I) : Z := (dimensions b).2.
Definition getBeginX (b : Box2I) : Z := (minimum b).1.
Definition getBeginY (b : Box2I) : Z := (minimum b).2.
Definition getEndX (b : Box2I) : Z := (minimum b).1 + (dimensions b).1.
Definition getEndY (b : Box2I) : Z := (minimum b).2 + (dimensions b).2.
Definition getMaxX (b : Box2I) : Z := getEndX b - 1.
Definition getMaxY (b : Box2I) : Z := getEndY b - 1.

Definition dilatedBy (b : Box2I) (r : Z) : Box2I :=
  if isEmpty b then b
  else
    let dims := (getWidth b + 2 * r, getHeight b + 2 * r) in
    if (dims.1 <=? 0) || (dims.2 <=? 0) then emptyBox
    else mkBox2I (getBeginX b - r, getBeginY b - r) dims.

Definition clippedTo (b other : Box2I) : Box2I :=
  if isEmpty b then b
  else if isEmpty other then emptyBox
  else
    let minX := Z.max (getBeginX b) (getBeginX other) in
    let minY := Z.max (getBeginY b) (getBeginY other) in
    let maxX := Z.min (getMaxX b) (getMaxX other) in
    let maxY := Z.min (getMaxY b) (getMaxY other) in
    if (maxX <? minX) || (maxY <? minY) then emptyBox
    else mkBox2I (minX, minY) (1 + maxX - minX, 1 + maxY - minY).

(** [outer.contains(inner)]: an empty box is contained in every box. *)
Definition contains (outer inner : Box2I) : bool :=
  isEmpty inner
  || (negb (isEmpty outer)
      && (getBeginX outer <=? getBeginX inner)
      && (getBeginY outer <=? getBeginY inner)
      && (getMaxX inner <=? getMaxX outer)
      && (getMaxY inner <=? getMaxY outer)).

(** [Point2I(centroid)]: each coordinate goes to the nearest integer,
    floor(v + 0.5).  The library leaves the conversion of a coordinate
    that is not finite undefined; the model reports it as an error. *)
Definition roundCoord (v : fnum) : Result Z :=
  match v with
  | Fin q => Ok (Qfloor (q + (1 # 2)))
  | _ => Raise (ValueError "coordinate is not finite")
  end.

Definition Point2I (c : Centroid) : Result (Z * Z) :=
  x <-? roundCoord c.1 ;
  y <-? roundCoord c.2 ;
  Ok (x, y).

End geom.

(** ** numpy conversions used on centroids *)

Module np.

(** One coordinate of [np.array(coords, dtype=int)]: truncation towards
    zero. *)
Definition toInt (v : fnum) : Result Z :=
  match v with
  | Fin q => Ok (Z.quot (Qnum q) (Z.pos (Qden q)))
  | NaN => Raise (ValueError "cannot convert float NaN to integer")
  | _ => Raise (OverflowError "cannot convert float infinity to integer")
  end.

Definition array_int (c : Centroid) : Result (Z * Z) :=
  x <-? toInt c.1 ;
  y <-? toInt c.2 ;
  Ok (x, y).

(** [np.min] of the four distances of [_calcMaxBoxHalfSize]. *)
Definition min4 (a b c d : Z) : Z := Z.min (Z.min a b) (Z.min c d).

End np.

(** ** Radii

    [Sqrt q] is the square root of the rational [q]: the norm of a vector
    with rational coordinates.  Radii are compared through their squares. *)

Inductive radius : Type := Sqrt (q : Q).

Definition sq (d : radius) : Q := match d with Sqrt q => q end.

(** The real number a radius stands for. *)
Definition toR (d : radius) : R := sqrt (Q2R (sq d)).

(** [norm v] for a vector with two coordinates. *)
Definition norm (v : Q * Q) : radius := Sqrt (v.1 * v.1 + v.2 * v.2)%Q.

(** [dist > k] for a radius [dist] and an integer [k]. *)
Definition dist_gtb (d : radius) (k : Z) : bool :=
  (k <? 0) || negb (Qle_bool (sq d) (inject_Z (k * k))).

Definition dist_leb (a b : radius) : bool := Qle_bool (sq a) (sq b).
Definition dist_eqb (a b : radius) : bool := Qeq_bool (sq a) (sq b).

(** ** The exposure

    What the examiner reads from an exposure: its bounding box, the pixel
    and mask planes as functions of the pixel position (x, y), the bit of a
    named mask plane, and the result the source-detection task would give
    for it. *)

Record QfmResult : Type := mkQfmResult {
  success : bool;
  brightestObjCentroid : Centroid
}.

Record Exposure : Type := mkExposure {
  getBBox : geom.Box2I;
  image : Z -> Z -> Q;
  mask : Z -> Z -> Z;
  getPlaneBitMask : string -> Z
}.

(** [image[bbox].array]: the rows are the y positions of the box and the
    columns its x positions, so the array has shape (height, width).  A box
    that is not inside the image is refused. *)
Definition subArray {A : Type} (plane : Z -> Z -> A) (bbox : geom.Box2I)
  : list (list A) :=
  (fun y => (fun x => plane x y)
              <$> seqZ (geom.getBeginX bbox) (geom.getWidth bbox))
    <$> seqZ (geom.getBeginY bbox) (geom.getHeight bbox).

Definition subImage {A : Type} (e : Exposure) (plane : Z -> Z -> A)
    (bbox : geom.Box2I) : Result (list (list A)) :=
  if geom.contains (getBBox e) bbox then Ok (subArray plane bbox)
  else Raise (LengthError "box is not contained in the image").

(** [utils.countPixels]: the number of pixels whose mask has the plane's bit. *)
Definition countPixels (maskArray : list (list Z)) (bit : Z) : nat :=
  length (filter (fun m => Z.land m bit <> 0) (mjoin maskArray)).

(** ** The examiner object *)

(** Values held by the statistics structure.  [VFwhm sigma] is the product
    of [sigma] and the constant [SIGMATOFWHM] = 2*sqrt(2*ln 2). *)
Inductive Value : Type :=
| VNum (x : fnum)
| VInt (z : Z)
| VBool (b : bool)
| VDist (d : radius)
| VIndex (p : nat * nat)
| VCentroid (c : Centroid)
| VPoint (p : Z * Z)
| VFwhm (sigma : Q)
| VExternal (s : string).

(** What the examiner prints and which collaborator it runs. *)
Inductive Event : Type :=
| RunQuickFrameMeasurement
| PrintShrunk (centroid : Centroid) (boxHalfSize maxsize : Z)
| PrintUsingCoM
| PrintAdjusted (offset : fnum * fnum).

Record ImageExaminer : Type := mkImageExaminer {
  exp : Exposure;
  doTweakCentroid : bool;
  boxHalfSize : Z;
  centroid : Centroid;
  data : list (list Q);
  starBbox : geom.Box2I;
  nSatPixInBox : nat;
  imStats : gmap string Value;
  radialDistances : list radius;
  radialValues : list Q;
  radii : list radius;
  cumFluxes : list Q;
  cumFluxesNorm : list fnum;
  trace : list Event
}.

Definition set_boxHalfSize (v : Z) (s : ImageExaminer) : ImageExaminer :=
  mkImageExaminer (exp s) (doTweakCentroid s) v (centroid s) (data s)
    (starBbox s) (nSatPixInBox s) (imStats s) (radialDistances s)
    (radialValues s) (radii s) (cumFluxes s) (cumFluxesNorm s) (trace s).

Definition set_centroid (v : Centroid) (s : ImageExaminer) : ImageExaminer :=
  mkImageExaminer (exp s) (doTweakCentroid s) (boxHalfSize s) v (data s)
    (starBbox s) (nSatPixInBox s) (imStats s) (radialDistances s)
    (radialValues s) (radii s) (cumFluxes s) (cumFluxesNorm s) (trace s).

Definition set_data (v : list (list Q)) (s : ImageExaminer) : ImageExaminer :=
  mkImageExaminer (exp s) (doTweakCentroid s) (boxHalfSize s) (centroid s) v
    (starBbox s) (nSatPixInBox s) (imStats s) (radialDistances s)
    (radialValues s) (radii s) (cumFluxes s) (cumFluxesNorm s) (trace s).

Definition set_starBbox (v : geom.Box2I) (s : ImageExaminer) : ImageExaminer :=
  mkImageExaminer (exp s) (doTweakCentroid s) (boxHalfSize s) (centroid s)
    (data s) v (nSatPixInBox s) (imStats s) (radialDistances s)
    (radialValues s) (radii s) (cumFluxes s) (cumFluxesNorm s) (trace s).

Definition set_nSatPixInBox (v : nat) (s : ImageExaminer) : ImageExaminer :=
  mkImageExaminer (exp s) (doTweakCentroid s) (boxHalfSize s) (centroid s)
    (data s) (starBbox s) v (imStats s) (radialDistances s)
    (radialValues s) (radii s) (cumFluxes s) (cumFluxesNorm s) (trace s).

Definition set_imStats (v : gmap string Value) (s : ImageExaminer)
  : ImageExaminer :=
  mkImageExaminer (exp s) (doTweakCentroid s) (boxHalfSize s) (centroid s)
    (data s) (starBbox s) (nSatPixInBox s) v (radialDistances s)
    (radialValues s) (radii s) (cumFluxes s) (cumFluxesNorm s) (trace s).

Definition set_radial (ds : list radius) (vs : list Q) (s : ImageExaminer)
  : ImageExaminer :=
  mkImageExaminer (exp s) (doTweakCentroid s) (boxHalfSize s) (centroid s)
    (data s) (starBbox s) (nSatPixInBox s) (imStats s) ds vs
    (radii s) (cumFluxes s) (cumFluxesNorm s) (trace s).

Definition set_table (rs : list radius) (cf : list Q) (cfn : list fnum)
    (s : ImageExaminer) : ImageExaminer :=
  mkImageExaminer (exp s) (doTweakCentroid s) (boxHalfSize s) (centroid s)
    (data s) (starBbox s) (nSatPixInBox s) (imStats s) (radialDistances s)
    (radialValues s) rs cf cfn (trace s).

Definition emit (ev : Event) (s : ImageExaminer) : ImageExaminer :=
  mkImageExaminer (exp s) (doTweakCentroid s) (boxHalfSize s) (centroid s)
    (data s) (starBbox s) (nSatPixInBox s) (imStats s) (radialDistances s)
    (radialValues s) (radii s) (cumFluxes s) (cumFluxesNorm s)
    (trace s ++ [ev]).

(** A method of the examiner: it reads and updates the object, and returns
    or raises. *)
Definition Method (A : Type) : Type := ImageExaminer -> Result (A * ImageExaminer).

Definition ret {A : Type} (a : A) : Method A := fun s => Ok (a, s).

Definition bindM {A B : Type} (m : Method A) (k : A -> Method B) : Method B :=
  fun s =>
    match m s with
    | Ok (a, s') => k a s'
    | Raise e => Raise e
    | RecursionError => RecursionError
    end.

Definition lift {A : Type} (r : Result A) : Method A :=
  fun s =>
    match r with
    | Ok a => Ok (a, s)
    | Raise e => Raise e
    | RecursionError => RecursionError
    end.

Definition self {A : Type} (field : ImageExaminer -> A) : Method A :=
  fun s => Ok (field s, s).

Definition assign (upd : ImageExaminer -> ImageExaminer) : Method unit :=
  fun s => Ok (tt, upd s).

Notation "x <- m ; k" := (bindM m (fun x => k))
  (at level 20, m at level 100, k at level 200, only parsing).
Notation "m ;> k" := (bindM m (fun _ => k))
  (at level 100, k at level 200, only parsing, right associativity).

(** ** The cutout box *)

(** [ImageExaminer._calcMaxBoxHalfSize]: the minimum distance between the
    centroid and the chip edge. *)
Definition _calcMaxBoxHalfSize (centroid : Centroid) (chipBbox : geom.Box2I)
  : Result Z :=
  let ll := geom.getBeginX chipBbox in
  let r := geom.getEndX chipBbox in
  let d := geom.getBeginY chipBbox in
  let u := geom.getEndY chipBbox in
  xy <-? np.array_int centroid ;
  let x := xy.1 in
  let y := xy.2 in
  let maxSize := np.min4 (x - ll) (r - x - 1) (u - y - 1) (y - d) in
  if 0 <=? maxSize then Ok maxSize
  else Raise (AssertionError "Box calculation went wrong").

(** [ImageExaminer._calcBbox].  The method calls itself after a shrink;
    [fuel] bounds the depth of the calls. *)
Fixpoint _calcBbox (fuel : nat) (centroid : Centroid) : Method geom.Box2I :=
  match fuel with
  | O => fun _ => RecursionError
  | S fuel' =>
      centroidPoint <- lift (geom.Point2I centroid) ;
      let extent := (1, 1) in
      let bbox := geom.Box2I_ centroidPoint extent in
      h <- self boxHalfSize ;
      let bbox := geom.dilatedBy bbox h in
      e <- self exp ;
      let bbox := geom.clippedTo bbox (getBBox e) in
      if negb ((geom.getDimensions bbox).1 =? (geom.getDimensions bbox).2) then
        maxsize <- lift (_calcMaxBoxHalfSize centroid (getBBox e)) ;
        assign (emit (PrintShrunk centroid h maxsize)) ;>
        assign (set_boxHalfSize maxsize) ;>
        _calcBbox fuel' centroid
      else ret bbox
  end.

(** ** Arrays

    A two-dimensional numpy array is the list of its rows; [array[i, j]] is
    row [i], column [j].  Arrays are rectangular, and the loops of the code
    only read positions inside the shape. *)

Abbreviation Array := (list (list Q)).

Definition shape (a : Array) : nat * nat :=
  (length a, length (default [] (head a))).

Definition at2 (a : Array) (p : nat * nat) : option Q :=
  row ← a !! p.1; row !! p.2.

Definition getitem (a : Array) (i j : nat) : Q := default 0%Q (at2 a (i, j)).

Definition Qmax (a b : Q) : Q := if Qle_bool a b then b else a.

(** [np.max] of the elements of an array, given flat. *)
Definition np_max (l : list Q) : Result Q :=
  match l with
  | [] => Raise (ValueError "zero-size array to reduction operation maximum")
  | x :: r => Ok (foldl Qmax x r)
  end.

(** The coordinate tuples of [np.where(cond)]: the positions where the
    condition holds, in row-major order. *)
Definition where2d (cond : Q -> bool) (a : Array) : list (nat * nat) :=
  mjoin (imap (fun i row =>
            omap id (imap (fun j v => if cond v then Some (i, j) else None) row))
          a).

(** [utils.argMax2d]: the first position of the maximum, whether it is the
    only one, and the other positions. *)
Definition argMax2d (array : Array)
  : Result ((nat * nat) * bool * list (nat * nat)) :=
  m <-? np_max (mjoin array) ;
  let maxCoords := where2d (fun v => Qeq_bool v m) array in
  let uniqueMaximum := (length maxCoords =? 1)%nat in
  match maxCoords with
  | [] => Raise (IndexError "list index out of range")
  | first :: others => Ok (first, uniqueMaximum, others)
  end.

Definition Qsum (l : list Q) : Q := foldr Qplus 0%Q l.

(** The sum of [weight i j * array[i, j]] over the array. *)
Definition moment (weight : nat -> nat -> Q) (a : Array) : Q :=
  Qsum (mjoin (imap (fun i row => imap (fun j v => (weight i j * v)%Q) row) a)).

(** [scipy.ndimage.center_of_mass]: the intensity-weighted mean row and
    column; the divisions are floating-point divisions. *)
Definition center_of_mass (a : Array) : fnum * fnum :=
  let normalizer := Qsum (mjoin a) in
  (fdiv (moment (fun i _ => inject_Z (Z.of_nat i)) a) normalizer,
   fdiv (moment (fun _ j => inject_Z (Z.of_nat j)) a) normalizer).

(** ** Cutout and centroid refinement *)

(** [ImageExaminer.getStarBoxData]. *)
Definition getStarBoxData (fuel : nat) : Method Array :=
  c <- self centroid ;
  bbox <- _calcBbox fuel c ;
  assign (set_starBbox bbox) ;>
  e <- self exp ;
  maskArray <- lift (subImage e (mask e) bbox) ;
  assign (set_nSatPixInBox (countPixels maskArray (getPlaneBitMask e "SAT"))) ;>
  lift (subImage e (image e) bbox).

Definition ofNat (n : nat) : fnum := ofZ (Z.of_nat n).

(** [ImageExaminer.tweakCentroid]. *)
Definition tweakCentroid : Method unit :=
  d <- self data ;
  am <- lift (argMax2d d) ;
  let uniquePeak := am.1.2 in
  nSatPix <- self nSatPixInBox ;
  peak <- (if negb uniquePeak || negb (nSatPix =? 0)%nat then
             assign (emit PrintUsingCoM) ;>
             ret (center_of_mass d)
           else ret (ofNat am.1.1.1, ofNat am.1.1.2)) ;
  h <- self boxHalfSize ;
  let offset := (fsub peak.1 (ofZ h), fsub peak.2 (ofZ h)) in
  assign (emit (PrintAdjusted offset)) ;>
  c <- self centroid ;
  let x := fadd c.1 offset.2 in
  let y := fadd c.2 offset.1 in
  assign (set_centroid (x, y)).

(** ** Radial samples and the encircled-energy table *)

(** The two loops of [radialAverageAndFit]: the distances and the values of
    the pixels kept, in the order of the loops. *)
Definition radialSamples (data : Array) : list radius * list Q :=
  let xlen := (shape data).1 in
  let ylen := (shape data).2 in
  let center := (Z.of_nat xlen # 2, Z.of_nat ylen # 2) in
  foldl (fun acc i =>
    foldl (fun acc j =>
      let value := getitem data i j in
      let d := norm (inject_Z (Z.of_nat i) - center.1,
                     inject_Z (Z.of_nat j) - center.2)%Q in
      if dist_gtb d (Z.of_nat xlen / 2) then acc
      else (acc.1 ++ [d], acc.2 ++ [value]))
      acc (seq 0 ylen))
    ([], []) (seq 0 xlen).

(** The order of Python on the tuples (distance, value). *)
Definition sample_leb (a b : radius * Q) : bool :=
  if dist_eqb a.1 b.1 then Qle_bool a.2 b.2 else dist_leb a.1 b.1.

Definition sample_le (a b : radius * Q) : Prop := sample_leb a b = true.

#[global] Instance sample_le_dec : RelDecision sample_le.
Proof. intros a b. unfold sample_le. apply _. Defined.

(** [sorted(zip(distances, values))]. *)
Definition sorted (samples : list (radius * Q)) : list (radius * Q) :=
  merge_sort sample_le samples.

Fixpoint cumsum_from (acc : Q) (l : list Q) : list Q :=
  match l with
  | [] => []
  | x :: r => (acc + x)%Q :: cumsum_from (acc + x)%Q r
  end.

(** [np.cumsum]. *)
Definition cumsum (l : list Q) : list Q :=
  match l with
  | [] => []
  | x :: r => x :: cumsum_from x r
  end.

(** [np.argmin]: the first not-a-number if there is one, else the first
    position of the minimum.  The loop is numpy's: the running minimum is
    replaced when the element is not greater than or equal to it. *)
Fixpoint argmin_loop (l : list fnum) (i : nat) (mp : fnum) (min_ind : nat)
  : nat :=
  match l with
  | [] => min_ind
  | x :: r =>
      if negb (fge x mp) then
        if isnan x then i else argmin_loop r (S i) x i
      else argmin_loop r (S i) mp min_ind
  end.

Definition argmin (l : list fnum) : Result nat :=
  match l with
  | [] => Raise (ValueError "attempt to get argmin of an empty sequence")
  | x :: r => Ok (if isnan x then 0%nat else argmin_loop r 1 x 0)
  end.

(** [ImageExaminer.getEncircledEnergyRadius]. *)
Definition getEncircledEnergyRadius (percentage : Q) (s : ImageExaminer)
  : Result radius :=
  i <-? argmin ((fun c => fabs (fsub (Fin (percentage / 100)) c))
                  <$> cumFluxesNorm s) ;
  match radii s !! i with
  | Some r => Ok r
  | None => Raise (IndexError "index out of bounds")
  end.

Definition setStat (k : string) (v : Value) : Method unit :=
  assign (fun s => set_imStats (<[k := v]> (imStats s)) s).

(** Reading an attribute of the statistics structure. *)
Definition getattr (stats : gmap string Value) (k : string) : Result Value :=
  match stats !! k with
  | Some v => Ok v
  | None => Raise (AttributeError k)
  end.

(** The labels of the three blocks of the statistics panel. *)
Definition astroMappings : list (string * string) :=
  [("object", "Object name"); ("mjd", "MJD"); ("expTime", "Exp Time");
   ("filter", "Filter"); ("grating", "grating"); ("airmass", "Airmass");
   ("rotangle", "Rotation Angle"); ("az", "Azimuth (deg)");
   ("el", "Elevation (deg)")]%string.

Definition imageMappings : list (string * string) :=
  [("centroid", "Centroid"); ("maxValue", "Max pixel value");
   ("maxPixelLocation", "Max pixel location");
   ("multipleMaxPixels", "Mutiple max pixels?");
   ("nBadPixels", "Num bad pixels"); ("nSatPixels", "Num saturated pixels");
   ("percentile99", "99th percentile");
   ("percentile9999", "99.99th percentile");
   ("clippedMean", "Clipped mean"); ("clippedStddev", "Clipped stddev")]%string.

Definition cutoutMappings : list (string * string) :=
  [("nStatPixInBox", "nSat in cutout"); ("fitAmp", "Radial fitted amp");
   ("fitGausMean", "Radial fitted position");
   ("fitFwhm", "Radial fitted FWHM"); ("eeRadius50", "50% flux radius");
   ("eeRadius80", "80% flux radius"); ("eeRadius90", "90% flux radius")]%string.

(** A line of the statistics panel: a label with its value, or the empty
    line written for an attribute that is missing. *)
Inductive Line : Type :=
| Entry (label : string) (value : Value)
| EmptyLine.

(** [ImageExaminer.translateStats]. *)
Definition translateStats (stats : gmap string Value)
    (mappingDict : list (string * string)) : list Line :=
  (fun kv =>
     match getattr stats kv.1 with
     | Ok value => Entry kv.2 value
     | _ => EmptyLine
     end) <$> mappingDict.

(** The attributes of a block that the structure does not hold: those for
    which [translateStats] writes an empty line. *)
Definition missingFields (stats : gmap string Value)
    (mappingDict : list (string * string)) : list string :=
  (filter (fun kv => stats !! kv.1 = None) mappingDict).*1.

(** The fit parameters as [ImageExaminer.plotRadialAverage] reads them
    before it draws (the third one is then divided by [SIGMATOFWHM]). *)
Definition plotRadialAverage_pars (s : ImageExaminer)
  : Result (Value * Value * Value) :=
  a <-? getattr (imStats s) "fitAmp" ;
  m <-? getattr (imStats s) "fitGausMean" ;
  w <-? getattr (imStats s) "fitFwhm" ;
  Ok (a, m, w).

(** Python's [round] on a finite number: to the nearest integer, a tie going
    to the even one. *)
Definition py_round (v : fnum) : Result Z :=
  match v with
  | Fin q =>
      let f := Qfloor q in
      let twice := Qfloor (2 * q) in
      Ok (if Qeq_bool (2 * q) (inject_Z (2 * f + 1))
          then (if Z.even f then f else f + 1)
          else if twice =? 2 * f then f else f + 1)
  | NaN => Raise (ValueError "cannot convert float NaN to integer")
  | _ => Raise (OverflowError "cannot convert float infinity to integer")
  end.

(** ** The analysis run

    The collaborators outside the repository are parameters: the least
    squares fit of scipy, which returns the fitted parameters or raises; the
    source-detection task; and the statistics that [getImageStats] reads
    from the metadata of the exposure or obtains from the statistics
    library. *)

Section Collaborators.

Variable curve_fit : list radius -> list Q -> Q * Q * Q -> Result (Q * Q * Q).
Variable qfmTask_run : Exposure -> QfmResult.
Variable externalStat : Exposure -> string -> Value.

(** [utils.getImageStats]. *)
Definition getImageStats (e : Exposure) : Result (gmap string Value) :=
  let ext := externalStat e in
  data <-? subImage e (image e) (getBBox e) ;
  maskArray <-? subImage e (mask e) (getBBox e) ;
  maxValue <-? np_max (mjoin data) ;
  am <-? argMax2d data ;
  let peak := am.1.1 in
  let uniquePeak := am.1.2 in
  Ok (list_to_map
        [("object", ext "object"); ("mjd", ext "mjd");
         ("expTime", ext "expTime"); ("filter", ext "filter");
         ("grating", ext "grating"); ("airmass", ext "airmass");
         ("rotangle", ext "rotangle"); ("az", ext "az"); ("el", ext "el");
         ("maxValue", VNum (Fin maxValue));
         ("maxPixelLocation", VIndex peak);
         ("multipleMaxPixels", VBool uniquePeak);
         ("nBadPixels",
          VInt (Z.of_nat (countPixels maskArray (getPlaneBitMask e "BAD"))));
         ("nSatPixels",
          VInt (Z.of_nat (countPixels maskArray (getPlaneBitMask e "SAT"))));
         ("percentile99", ext "percentile99");
         ("percentile9999", ext "percentile9999");
         ("clippedMean", ext "clippedMean");
         ("clippedStddev", ext "clippedStddev")]%string).

(** The [try] block of [radialAverageAndFit] with its handler: the
    parameters when the fit returned them, [None] when it raised a
    [RuntimeError] (the recursion error is one). *)
Definition fitGauss (distances : list radius) (values : list Q)
    (p0 : Q * Q * Q) : Method (option (Q * Q * Q)) :=
  let failed : Method (option (Q * Q * Q)) :=
    setStat "fitAmp" (VNum NaN) ;>
    setStat "fitMean" (VNum NaN) ;>
    setStat "fitFwhm" (VNum NaN) ;>
    ret None in
  match curve_fit distances values p0 with
  | Ok pars => ret (Some (Qabs pars.1.1, pars.1.2, Qabs pars.2))
  | Raise (RuntimeError _) => failed
  | RecursionError => failed
  | Raise e => lift (Raise e)
  end.

(** [ImageExaminer.radialAverageAndFit]. *)
Definition radialAverageAndFit : Method unit :=
  d <- self data ;
  let distances := (radialSamples d).1 in
  let values := (radialSamples d).2 in
  let peakPos := 0%Q in
  amplitude <- lift (np_max values) ;
  let width := 10%Q in
  pars <- fitGauss distances values (amplitude, peakPos, width) ;
  (match pars with
   | Some p =>
       setStat "fitAmp" (VNum (Fin p.1.1)) ;>
       setStat "fitGausMean" (VNum (Fin p.1.2)) ;>
       setStat "fitFwhm" (VFwhm p.2)
   | None => ret tt
   end) ;>
  assign (set_radial distances values) ;>
  let d := sorted (zip distances values) in
  let radii := d.*1 in
  let values := d.*2 in
  let cumFluxes := cumsum values in
  m <- lift (np_max cumFluxes) ;
  assign (set_table radii cumFluxes ((fun c => fdiv c m) <$> cumFluxes)) ;>
  r50 <- (fun s => lift (getEncircledEnergyRadius 50 s) s) ;
  setStat "eeRadius50" (VDist r50) ;>
  r80 <- (fun s => lift (getEncircledEnergyRadius 80 s) s) ;
  setStat "eeRadius80" (VDist r80) ;>
  r90 <- (fun s => lift (getEncircledEnergyRadius 90 s) s) ;
  setStat "eeRadius90" (VDist r90).

(** The centroid [__init__] starts from, with the events of obtaining
    it. *)
Definition initialCentroid (e : Exposure) (centroid : option Centroid)
  : Result (Centroid * list Event) :=
  match centroid with
  | None =>
      let result := qfmTask_run e in
      if negb (success result) then
        Raise (RuntimeError
          "Failed to automatically find source in image. Either provide a centroid manually or use a new image")
      else Ok (brightestObjCentroid result, [RunQuickFrameMeasurement])
  | Some c => Ok (c, [])
  end.

(** What [__init__] does once [self.centroid] is set. *)
Definition analyse (fuel : nat) : Method unit :=
  d <- getStarBoxData fuel ;
  assign (set_data d) ;>
  tweak <- self doTweakCentroid ;
  (if tweak then
     tweakCentroid ;>
     d <- getStarBoxData fuel ;
     assign (set_data d)
   else ret tt) ;>
  e <- self exp ;
  stats <- lift (getImageStats e) ;
  assign (set_imStats stats) ;>
  c <- self centroid ;
  setStat "centroid" (VCentroid c) ;>
  ic <- lift (np.array_int c) ;
  setStat "intCentroid" (VPoint ic) ;>
  rx <- lift (py_round c.1) ;
  ry <- lift (py_round c.2) ;
  setStat "intCentroidRounded" (VPoint (rx, ry)) ;>
  n <- self nSatPixInBox ;
  setStat "nStatPixInBox" (VInt (Z.of_nat n)) ;>
  radialAverageAndFit.

(** [ImageExaminer.__init__]: the examiner it builds, or the exception.
    The mesh grid of the plots is left out. *)
Definition __init__ (fuel : nat) (e : Exposure) (doTweak : bool)
    (centroid : option Centroid) (boxHalfSize : Z) : Result ImageExaminer :=
  start <-? initialCentroid e centroid ;
  let s := mkImageExaminer e doTweak boxHalfSize start.1 [] geom.emptyBox
             0%nat ∅ [] [] [] [] [] start.2 in
  r <-? analyse fuel s ;
  Ok r.2.

End Collaborators.

(** ** Vocabulary of the statements *)

(** The box of half-size [h] around the pixel (x, y). *)
Definition squareAt (x y h : Z) : geom.Box2I :=
  geom.mkBox2I (x - h, y - h) (2 * h + 1, 2 * h + 1).

(** The pixel at [p] holds the maximum of the array. *)
Definition holdsMax (a : Array) (p : nat * nat) : Prop :=
  exists v, at2 a p = Some v
            /\ forall p' v', at2 a p' = Some v' -> (v' <= v)%Q.

(** The maximum of the array occurs at more than one location. *)
Definition maxNotUnique (a : Array) : Prop :=
  exists p p', p <> p' /\ holdsMax a p /\ holdsMax a p'.

(** The examiner after a refinement that took [peak] = (row, column) as the
    peak location of the cutout. *)
Definition refinedBy (peak : fnum * fnum) (s : ImageExaminer) : ImageExaminer :=
  let offset := (fsub peak.1 (ofZ (boxHalfSize s)),
                 fsub peak.2 (ofZ (boxHalfSize s))) in
  set_centroid (fadd (centroid s).1 offset.2, fadd (centroid s).2 offset.1)
    (emit (PrintAdjusted offset) s).

(** The distance of the pixel [i, j] of the cutout from the centre of the
    box, (xlen/2, ylen/2). *)
Definition pixelDist (data : Array) (i j : nat) : radius :=
  norm (inject_Z (Z.of_nat i) - (Z.of_nat (shape data).1 # 2),
        inject_Z (Z.of_nat j) - (Z.of_nat (shape data).2 # 2))%Q.

(** The positions of the cutout in the order of the two loops. *)
Definition pixels (data : Array) : list (nat * nat) :=
  i ← seq 0 (shape data).1; pair i <$> seq 0 (shape data).2.

(** The distance of the pixel from the centre is at most [xlen/2], half the
    length of the first axis. *)
Definition withinHalfWidth (data : Array) (i j : nat) : bool :=
  Qle_bool (sq (pixelDist data i j))
    ((Z.of_nat (shape data).1 # 2) * (Z.of_nat (shape data).1 # 2)).

(** The distance of the pixel from the centre is at most [xlen//2], the
    integer half of the length of the first axis. *)
Definition withinHalfSize (data : Array) (i j : nat) : bool :=
  Qle_bool (sq (pixelDist data i j))
    (inject_Z ((Z.of_nat (shape data).1 / 2) * (Z.of_nat (shape data).1 / 2))).

(** The sample of a pixel. *)
Definition sampleOf (data : Array) (p : nat * nat) : radius * Q :=
  (pixelDist data p.1 p.2, getitem data p.1 p.2).

(** The samples of the cutout as pairs (distance, value). *)
Definition samplesOf (data : Array) : list (radius * Q) :=
  zip (radialSamples data).1 (radialSamples data).2.

(** The sample set is the disk of radius [xlen/2]: the samples are those of
    the pixels whose distance from the centre is at most half the length of
    the first axis, and no others. *)
Definition samplesFillHalfWidth (data : Array) : Prop :=
  forall i j, (i < (shape data).1)%nat -> (j < (shape data).2)%nat ->
    (sampleOf data (i, j) ∈ samplesOf data
     <-> (toR (pixelDist data i j) <= IZR (Z.of_nat (shape data).1) / 2)%R).





(** A method keeps a relation between the object before and after it. *)
Definition preserves (R : ImageExaminer -> ImageExaminer -> Prop)
    {A : Type} (m : Method A) : Prop :=
  forall s a s', m s = Ok (a, s') -> R s s'.

(** The detection task was not run in between. *)
Definition noDetection (s s' : ImageExaminer) : Prop :=
  RunQuickFrameMeasurement ∈ trace s' -> RunQuickFrameMeasurement ∈ trace s.

(** The refinement switch and the centroid are as they were. *)
Definition sameCentroid (s s' : ImageExaminer) : Prop :=
  doTweakCentroid s' = doTweakCentroid s /\ centroid s' = centroid s.

(** ** Concrete exposures and examiners used in the examples *)

(** A chip of 200 x 200 pixels at the origin with a flat background of 10
    and an empty mask. *)
Definition chip200 : Exposure :=
  mkExposure (geom.mkBox2I (0, 0) (200, 200))
    (fun _ _ => 10%Q) (fun _ _ => 0) (fun _ => 1).

(** The attributes of an examiner before [__init__] has computed any. *)
Definition blank (e : Exposure) (tweak : bool) (h : Z) (c : Centroid)
  : ImageExaminer :=
  mkImageExaminer e tweak h c [] geom.emptyBox 0%nat ∅ [] [] [] [] [] [].

(** An examiner holding the cutout [d] of half-size 1 around (100, 100),
    with [n] saturated pixels in it. *)
Definition withCutout (d : Array) (n : nat) : ImageExaminer :=
  mkImageExaminer chip200 true 1 (ofZ 100, ofZ 100) d
    (squareAt 100 100 1) n ∅ [] [] [] [] [] [].

(** A cutout whose maximum, 3, is at (0, 1) and at (1, 0). *)
Definition twoPeaks : Array := [[1; 3; 0]; [3; 2; 0]; [0; 0; 0]]%Q.

(** A cutout with its only maximum, 3, at (0, 1). *)
Definition onePeak : Array := [[1; 3; 0]; [0; 2; 0]; [0; 0; 0]]%Q.

(** A cutout of 5 x 5 pixels whose values are all different: row [i],
    column [j] holds [5*i + j]. *)
Definition ramp5 : Array :=
  [[0; 1; 2; 3; 4]; [5; 6; 7; 8; 9]; [10; 11; 12; 13; 14];
   [15; 16; 17; 18; 19]; [20; 21; 22; 23; 24]]%Q.

(** An examiner holding an encircled-energy table of three points. *)
Definition withTable : ImageExaminer :=
  mkImageExaminer chip200 true 1 (ofZ 100, ofZ 100) [] geom.emptyBox 0%nat ∅
    [] [] [Sqrt (1 # 2); Sqrt (5 # 2); Sqrt (9 # 2)] [1; 3; 4]%Q
    [Fin (1 # 4); Fin (3 # 4); Fin 1] [].

(** A fit that returns its initial guess, and a fit that does not
    converge. *)
Definition fitReturns : list radius -> list Q -> Q * Q * Q -> Result (Q * Q * Q) :=
  fun _ _ p0 => Ok p0.

Definition fitFails : list radius -> list Q -> Q * Q * Q -> Result (Q * Q * Q) :=
  fun _ _ _ => Raise (RuntimeError "Optimal parameters not found").



(** A star on a background of 1. *)
Definition star5 : Array :=
  [[1; 1; 1; 1; 1]; [1; 1; 2; 2; 1]; [1; 2; 9; 8; 1]; [1; 2; 8; 7; 1];
   [1; 1; 1; 1; 1]]%Q.


(** A chip of 9 x 9 pixels with a star at (4, 4) over a background of 10,
    an empty mask, a detection task that finds nothing, and metadata
    entries that stand for themselves. *)
Definition starChip : Exposure :=
  mkExposure (geom.mkBox2I (0, 0) (9, 9))
    (fun x y => if (x =? 4) && (y =? 4) then 50%Q
                else if (Z.abs (x - 4) + Z.abs (y - 4) =? 1) then 20%Q
                else 10%Q)
    (fun _ _ => 0) (fun _ => 1).

Definition detectsNothing : Exposure -> QfmResult :=
  fun _ => mkQfmResult false (NaN, NaN).

Definition metadata : Exposure -> string -> Value :=
  fun _ key => VExternal key.

(** ** Slices of the cutout *)

(** An integer index into an axis of length [n], as numpy reads it: a
    negative index counts from the end, and an index outside the axis is an
    [IndexError]. *)
Definition np_index (n : nat) (i : Z) : Result nat :=
  if (0 <=? i) && (i <? Z.of_nat n) then Ok (Z.to_nat i)
  else if (- Z.of_nat n <=? i) && (i <? 0) then Ok (Z.to_nat (Z.of_nat n + i))
  else Raise (IndexError "index is out of bounds for axis").

(** [array[i, :]]. *)
Definition rowAt (a : Array) (i : Z) : Result (list Q) :=
  k <-? np_index (shape a).1 i ;
  Ok ((fun j => getitem a k j) <$> seq 0 (shape a).2).

(** [array[:, j]]. *)
Definition colAt (a : Array) (j : Z) : Result (list Q) :=
  k <-? np_index (shape a).2 j ;
  Ok ((fun i => getitem a i k) <$> seq 0 (shape a).1).

(** [range(start, stop)]. *)
Definition range (start stop : Z) : list Z := seqZ start (stop - start).

(** [ImageExaminer.plotRowColSlices]: the abscissae and the two slices it
    hands to the axes. *)
Definition plotRowColSlices (s : ImageExaminer)
  : Result (list Z * list Q * list Q) :=
  rowSlice <-? rowAt (data s) (boxHalfSize s) ;
  colSlice <-? colAt (data s) (boxHalfSize s) ;
  let xs := range (-1 * boxHalfSize s) (boxHalfSize s + 1) in
  Ok (xs, rowSlice, colSlice).

(** ** Row-major order *)



(** * Properties *)

(** ** Integers seen as floating-point coordinates *)

Lemma roundCoord_ofZ (x : Z) : geom.roundCoord (ofZ x) = Ok x.
Proof.
  unfold geom.roundCoord, ofZ, inject_Z, Qfloor, Qplus; cbn [Qnum Qden].
  f_equal. replace (x * 2 + 1 * 1) with (1 + x * 2) by lia.
  rewrite Z.div_add by lia. reflexivity.
Qed.

Lemma toInt_ofZ (x : Z) : np.toInt (ofZ x) = Ok x.
Proof.
  unfold np.toInt, ofZ, inject_Z; cbn [Qnum Qden].
  f_equal. apply Z.quot_1_r.
Qed.

Lemma Point2I_ofZ (x y : Z) : geom.Point2I (ofZ x, ofZ y) = Ok (x, y).
Proof.
  unfold geom.Point2I; cbn [fst snd].
  rewrite !roundCoord_ofZ. reflexivity.
Qed.

Lemma array_int_ofZ (x y : Z) : np.array_int (ofZ x, ofZ y) = Ok (x, y).
Proof.
  unfold np.array_int; cbn [fst snd].
  rewrite !toInt_ofZ. reflexivity.
Qed.

(** ** Box geometry *)

Ltac unfold_geom :=
  unfold geom.contains, geom.isEmpty, geom.getWidth, geom.getHeight,
    geom.getMaxX, geom.getMaxY, geom.getEndX, geom.getEndY,
    geom.getBeginX, geom.getBeginY, geom.getDimensions in *;
  cbn [geom.minimum geom.dimensions fst snd] in *.

(** The box of one pixel at a point, grown by a buffer that is not
    negative. *)
Lemma dilated_pixel (x y h : Z) :
  0 <= h ->
  geom.dilatedBy (geom.Box2I_ (x, y) (1, 1)) h
  = geom.mkBox2I (x - h, y - h) (1 + 2 * h, 1 + 2 * h).
Proof.
  intros Hh. unfold geom.Box2I_; cbn.
  unfold geom.dilatedBy; cbn.
  destruct (1 + 2 * h <=? 0) eqn:E; [lia | reflexivity].
Qed.

(** Clipping a box to a box it lies inside leaves it as it is. *)
Lemma clippedTo_inside (x y w h : Z) (chip : geom.Box2I) :
  0 < w -> 0 < h ->
  geom.getBeginX chip <= x -> x + w <= geom.getEndX chip ->
  geom.getBeginY chip <= y -> y + h <= geom.getEndY chip ->
  geom.clippedTo (geom.mkBox2I (x, y) (w, h)) chip
  = geom.mkBox2I (x, y) (w, h).
Proof.
  destruct chip as [[cx cy] [cw ch]].
  unfold geom.getBeginX, geom.getEndX, geom.getBeginY, geom.getEndY; cbn.
  intros Hw Hh Hx Hxe Hy Hye.
  unfold geom.clippedTo, geom.isEmpty, geom.getBeginX, geom.getBeginY,
    geom.getMaxX, geom.getMaxY, geom.getEndX, geom.getEndY; cbn.
  destruct (w =? 0) eqn:E1; [lia |]. cbn.
  destruct ((cw =? 0) && (ch =? 0)) eqn:E2; [lia |].
  rewrite (Z.max_l x cx), (Z.max_l y cy) by lia.
  rewrite (Z.min_l (x + w - 1)), (Z.min_l (y + h - 1)) by lia.
  destruct ((x + w - 1 <? x) || (y + h - 1 <? y)) eqn:E3; [lia |].
  f_equal. f_equal; lia.
Qed.

(** ** The cutout box *)

(** One pass of [_calcBbox] when the dilated box lies inside the chip: the
    box is returned as it is and the object is left alone. *)
Lemma calcBbox_fits (st : ImageExaminer) (c : Centroid) (x y : Z)
    (fuel : nat) :
  geom.Point2I c = Ok (x, y) ->
  0 <= boxHalfSize st ->
  geom.getBeginX (getBBox (exp st)) <= x - boxHalfSize st ->
  x + boxHalfSize st < geom.getEndX (getBBox (exp st)) ->
  geom.getBeginY (getBBox (exp st)) <= y - boxHalfSize st ->
  y + boxHalfSize st < geom.getEndY (getBBox (exp st)) ->
  _calcBbox (S fuel) c st = Ok (squareAt x y (boxHalfSize st), st).
Proof.
  intros HP Hh Hl Hr Hd Hu.
  cbn [_calcBbox]. unfold bindM, lift, self, ret. rewrite HP.
  rewrite dilated_pixel by assumption.
  rewrite clippedTo_inside by lia.
  cbn. rewrite Z.eqb_refl. cbn.
  unfold squareAt. rewrite (Z.add_comm 1 (2 * boxHalfSize st)). reflexivity.
Qed.

(** C1.  When the rounded centroid has at least [boxHalfSize] pixels of
    margin to every edge of the exposure, [_calcBbox] returns a box that is
    square with side 2*boxHalfSize+1, centred on the rounded centroid and
    inside the bounds of the exposure; the half-size is not changed and
    nothing is printed. *)
Theorem calcBbox_margin_square (st : ImageExaminer) (c : Centroid)
    (x y : Z) (fuel : nat) :
  geom.Point2I c = Ok (x, y) ->
  0 <= boxHalfSize st ->
  boxHalfSize st <= x - geom.getBeginX (getBBox (exp st)) ->
  boxHalfSize st <= geom.getEndX (getBBox (exp st)) - x - 1 ->
  boxHalfSize st <= geom.getEndY (getBBox (exp st)) - y - 1 ->
  boxHalfSize st <= y - geom.getBeginY (getBBox (exp st)) ->
  exists bbox,
    _calcBbox (S fuel) c st = Ok (bbox, st)
    /\ geom.getWidth bbox = 2 * boxHalfSize st + 1
    /\ geom.getHeight bbox = 2 * boxHalfSize st + 1
    /\ geom.getBeginX bbox = x - boxHalfSize st
    /\ geom.getBeginY bbox = y - boxHalfSize st
    /\ geom.getBeginX (getBBox (exp st)) <= geom.getBeginX bbox
    /\ geom.getEndX bbox <= geom.getEndX (getBBox (exp st))
    /\ geom.getBeginY (getBBox (exp st)) <= geom.getBeginY bbox
    /\ geom.getEndY bbox <= geom.getEndY (getBBox (exp st))
    /\ geom.contains (getBBox (exp st)) bbox = true.
Proof.
  intros HP Hh Hl Hr Hu Hd.
  exists (squareAt x y (boxHalfSize st)).
  split; [apply calcBbox_fits; (assumption || lia) |].
  unfold squareAt, geom.getWidth, geom.getHeight, geom.getBeginX,
    geom.getBeginY, geom.getEndX, geom.getEndY in *; cbn.
  repeat (split; [lia |]).
  unfold geom.contains, geom.isEmpty, geom.getMaxX, geom.getMaxY,
    geom.getBeginX, geom.getBeginY, geom.getEndX, geom.getEndY; cbn.
  destruct (getBBox (exp st)) as [[cx cy] [cw ch]]; cbn in *.
  lia.
Qed.

(** C1 at the centre of the 200 x 200 chip with the default half-size. *)
Lemma calcBbox_margin_square_witness :
  let st := blank chip200 true 50 (ofZ 100, ofZ 100) in
  geom.Point2I (ofZ 100, ofZ 100) = Ok (100, 100)
  /\ 0 <= boxHalfSize st
  /\ exists bbox,
       _calcBbox 1 (ofZ 100, ofZ 100) st = Ok (bbox, st)
       /\ geom.getWidth bbox = 2 * boxHalfSize st + 1
       /\ geom.getHeight bbox = 2 * boxHalfSize st + 1
       /\ geom.getBeginX bbox = 100 - boxHalfSize st
       /\ geom.getBeginY bbox = 100 - boxHalfSize st
       /\ geom.getBeginX (getBBox (exp st)) <= geom.getBeginX bbox
       /\ geom.getEndX bbox <= geom.getEndX (getBBox (exp st))
       /\ geom.getBeginY (getBBox (exp st)) <= geom.getBeginY bbox
       /\ geom.getEndY bbox <= geom.getEndY (getBBox (exp st))
       /\ geom.contains (getBBox (exp st)) bbox = true.
Proof.
  intros st. split; [reflexivity |]. split; [subst st; cbn; lia |].
  apply (calcBbox_margin_square st (ofZ 100, ofZ 100) 100 100 0);
    [reflexivity | subst st; cbn; unfold_geom; lia ..].
Defined.

Lemma calcMaxBoxHalfSize_inside (x y : Z) (chip : geom.Box2I) :
  geom.getBeginX chip <= x < geom.getEndX chip ->
  geom.getBeginY chip <= y < geom.getEndY chip ->
  _calcMaxBoxHalfSize (ofZ x, ofZ y) chip
  = Ok (np.min4 (x - geom.getBeginX chip) (geom.getEndX chip - x - 1)
          (geom.getEndY chip - y - 1) (y - geom.getBeginY chip)).
Proof.
  intros Hx Hy. unfold _calcMaxBoxHalfSize.
  rewrite array_int_ofZ. cbn [bindR fst snd].
  destruct (0 <=? _) eqn:E; [reflexivity |].
  unfold np.min4 in E. lia.
Qed.

Lemma calcBbox_unfold (fuel : nat) (c : Centroid) :
  _calcBbox (S fuel) c
  = (centroidPoint <- lift (geom.Point2I c) ;
     h <- self boxHalfSize ;
     e <- self exp ;
     let bbox :=
       geom.clippedTo (geom.dilatedBy (geom.Box2I_ centroidPoint (1, 1)) h)
         (getBBox e) in
     if negb ((geom.getDimensions bbox).1 =? (geom.getDimensions bbox).2) then
       maxsize <- lift (_calcMaxBoxHalfSize c (getBBox e)) ;
       assign (emit (PrintShrunk c h maxsize)) ;>
       assign (set_boxHalfSize maxsize) ;>
       _calcBbox fuel c
     else ret bbox).
Proof. reflexivity. Qed.

(** C10.  For an integer centroid inside the exposure, [_calcBbox] returns
    with two levels of calls: either the clipped box is square at once and
    nothing changes, or the half-size is shrunk once, to the minimum
    distance from the centroid to an edge, and the recomputed box is the
    unclipped square of that half-size, so no second shrink follows. *)
Theorem calcBbox_shrinks_at_most_once (st : ImageExaminer) (x y : Z)
    (fuel : nat) :
  geom.getBeginX (getBBox (exp st)) <= x < geom.getEndX (getBBox (exp st)) ->
  geom.getBeginY (getBBox (exp st)) <= y < geom.getEndY (getBBox (exp st)) ->
  (2 <= fuel)%nat ->
  exists bbox st',
    _calcBbox fuel (ofZ x, ofZ y) st = Ok (bbox, st')
    /\ geom.getWidth bbox = geom.getHeight bbox
    /\ (st' = st
        \/ exists m,
             m = np.min4 (x - geom.getBeginX (getBBox (exp st)))
                   (geom.getEndX (getBBox (exp st)) - x - 1)
                   (geom.getEndY (getBBox (exp st)) - y - 1)
                   (y - geom.getBeginY (getBBox (exp st)))
             /\ st' = set_boxHalfSize m
                        (emit (PrintShrunk (ofZ x, ofZ y) (boxHalfSize st) m) st)
             /\ bbox = squareAt x y m
             /\ bbox = geom.dilatedBy (geom.Box2I_ (x, y) (1, 1)) m
             /\ geom.contains (getBBox (exp st)) bbox = true).
Proof.
  intros Hx Hy Hfuel.
  destruct fuel as [| [| fuel]]; [lia | lia |].
  rewrite calcBbox_unfold. unfold bindM at 1, lift at 1.
  rewrite Point2I_ofZ. unfold bindM at 1, self at 1.
  unfold bindM at 1, self at 1.
  set (clipped := geom.clippedTo _ _).
  destruct (negb _) eqn:Esq.
  - (* the clipped box is not square: one shrink *)
    unfold bindM at 1, lift at 1.
    rewrite calcMaxBoxHalfSize_inside by assumption.
    set (m := np.min4 _ _ _ _).
    unfold bindM at 1, assign at 1. unfold bindM at 1, assign at 1.
    set (st1 := set_boxHalfSize m _).
    assert (Hm : 0 <= m) by (subst m; unfold np.min4; lia).
    assert (Hfit : _calcBbox (S fuel) (ofZ x, ofZ y) st1
                   = Ok (squareAt x y (boxHalfSize st1), st1)).
    { apply calcBbox_fits; [apply Point2I_ofZ | ..];
        subst st1; cbn [boxHalfSize exp set_boxHalfSize emit];
        subst m; unfold np.min4; lia. }
    rewrite Hfit. subst st1. cbn [boxHalfSize set_boxHalfSize].
    exists (squareAt x y m), (set_boxHalfSize m
      (emit (PrintShrunk (ofZ x, ofZ y) (boxHalfSize st) m) st)).
    split; [reflexivity |]. split; [reflexivity |].
    right. exists m. split; [reflexivity |]. split; [reflexivity |].
    split; [reflexivity |].
    split; [rewrite dilated_pixel by assumption; unfold squareAt;
            rewrite (Z.add_comm 1 (2 * m)); reflexivity |].
    unfold squareAt. subst m. unfold np.min4.
    destruct (getBBox (exp st)) as [[cx cy] [cw ch]].
    unfold_geom. lia.
  - (* the clipped box is square: returned as it is *)
    unfold ret. exists clipped, st.
    split; [reflexivity |]. split; [| left; reflexivity].
    apply negb_false_iff, Z.eqb_eq in Esq. exact Esq.
Qed.

(** C10 at the pixel (5, 7) of the 200 x 200 chip with half-size 50, where
    the clipped box is 56 wide and 58 high. *)
Lemma calcBbox_shrinks_at_most_once_witness :
  let st := blank chip200 true 50 (ofZ 5, ofZ 7) in
  (geom.getBeginX (getBBox (exp st)) <= 5 < geom.getEndX (getBBox (exp st)))
  /\ (geom.getBeginY (getBBox (exp st)) <= 7 < geom.getEndY (getBBox (exp st)))
  /\ exists bbox st',
       _calcBbox 2 (ofZ 5, ofZ 7) st = Ok (bbox, st')
       /\ geom.getWidth bbox = geom.getHeight bbox
       /\ (st' = st
           \/ exists m,
                m = np.min4 (5 - geom.getBeginX (getBBox (exp st)))
                      (geom.getEndX (getBBox (exp st)) - 5 - 1)
                      (geom.getEndY (getBBox (exp st)) - 7 - 1)
                      (7 - geom.getBeginY (getBBox (exp st)))
                /\ st' = set_boxHalfSize m
                           (emit (PrintShrunk (ofZ 5, ofZ 7) (boxHalfSize st) m)
                              st)
                /\ bbox = squareAt 5 7 m
                /\ bbox = geom.dilatedBy (geom.Box2I_ (5, 7) (1, 1)) m
                /\ geom.contains (getBBox (exp st)) bbox = true).
Proof.
  intros st.
  split; [subst st; cbn; unfold_geom; lia |].
  split; [subst st; cbn; unfold_geom; lia |].
  apply (calcBbox_shrinks_at_most_once st 5 7 2);
    [subst st; cbn; unfold_geom; lia .. | lia].
Defined.

(** C2, the scenario of the specification on the code: with the centroid at
    (5, 5) in the 200 x 200 chip and half-size 50, the box is clipped by the
    same amount on both axes, so it is square, 56 pixels wide, and
    [_calcBbox] returns it without a shrink: the half-size stays 50 and
    nothing is printed, although the minimum distance to an edge is 5.  In
    the same way a centroid outside the chip, at (-10, -10), gets a box of
    41 x 41 pixels and no error; the assertion only fails when the clip is
    not the same on both axes, as at (-10, 100). *)
Theorem calcBbox_corner_not_shrunk :
  let st := blank chip200 true 50 (ofZ 5, ofZ 5) in
  _calcBbox 2 (ofZ 5, ofZ 5) st = Ok (geom.mkBox2I (0, 0) (56, 56), st)
  /\ boxHalfSize st = 50
  /\ _calcMaxBoxHalfSize (ofZ 5, ofZ 5) (getBBox chip200) = Ok 5
  /\ geom.mkBox2I (0, 0) (56, 56) <> squareAt 5 5 5
  /\ _calcBbox 2 (ofZ (-10), ofZ (-10)) st
     = Ok (geom.mkBox2I (0, 0) (41, 41), st)
  /\ _calcBbox 2 (ofZ (-10), ofZ 100) st
     = Raise (AssertionError "Box calculation went wrong").
Proof.
  intros st. subst st.
  split; [reflexivity |]. split; [reflexivity |]. split; [reflexivity |].
  split; [| split; reflexivity].
  unfold squareAt. intros H. inversion H.
Qed.

(** ** Maxima of an array *)

Lemma Qmax_ge_l (x y : Q) : (x <= Qmax x y)%Q.
Proof.
  unfold Qmax. destruct (Qle_bool x y) eqn:E.
  - apply Qle_bool_iff. exact E.
  - apply Qle_refl.
Qed.

Lemma Qmax_ge_r (x y : Q) : (y <= Qmax x y)%Q.
Proof.
  unfold Qmax. destruct (Qle_bool x y) eqn:E.
  - apply Qle_refl.
  - apply Qlt_le_weak, Qnot_le_lt. intros H.
    apply Qle_bool_iff in H. congruence.
Qed.

Lemma Qmax_cases (x y : Q) : Qmax x y = x \/ Qmax x y = y.
Proof. unfold Qmax. destruct (Qle_bool x y); auto. Qed.

Lemma foldl_Qmax_spec (r : list Q) (x : Q) :
  (x <= foldl Qmax x r)%Q
  /\ (forall v, v ∈ r -> (v <= foldl Qmax x r)%Q)
  /\ foldl Qmax x r ∈ x :: r.
Proof.
  revert x. induction r as [| y r IH]; intros x; cbn.
  - split; [apply Qle_refl |]. split; [| left].
    intros v Hv. inversion Hv.
  - destruct (IH (Qmax x y)) as (H1 & H2 & H3).
    split; [eapply Qle_trans; [apply Qmax_ge_l | exact H1] |].
    split.
    + intros v Hv. apply elem_of_cons in Hv as [-> | Hv].
      * eapply Qle_trans; [apply Qmax_ge_r | exact H1].
      * apply H2, Hv.
    + apply elem_of_cons in H3 as [H3 | H3].
      * rewrite H3. destruct (Qmax_cases x y) as [-> | ->].
        -- left.
        -- right. left.
      * right. right. exact H3.
Qed.

Lemma np_max_spec (l : list Q) (m : Q) :
  np_max l = Ok m ->
  m ∈ l /\ forall v, v ∈ l -> (v <= m)%Q.
Proof.
  destruct l as [| x r]; cbn; [discriminate |].
  intros [= <-]. destruct (foldl_Qmax_spec r x) as (H1 & H2 & H3).
  split; [exact H3 |].
  intros v Hv. apply elem_of_cons in Hv as [-> | Hv]; auto.
Qed.

Lemma np_max_nonempty (l : list Q) :
  l <> [] -> exists m, np_max l = Ok m.
Proof. destruct l; [congruence | intros _; eexists; reflexivity]. Qed.

Lemma elem_of_join_at2 (a : Array) (v : Q) :
  v ∈ mjoin a <-> exists p, at2 a p = Some v.
Proof.
  rewrite list_elem_of_join. split.
  - intros (row & Hv & Hrow).
    apply list_elem_of_lookup in Hrow as [i Hi].
    apply list_elem_of_lookup in Hv as [j Hj].
    exists (i, j). unfold at2; cbn [fst snd]. rewrite Hi. exact Hj.
  - intros ([i j] & H). unfold at2 in H; cbn [fst snd] in H.
    destruct (a !! i) as [row |] eqn:Hi; [| discriminate]. cbn in H.
    exists row. split; apply list_elem_of_lookup; eauto.
Qed.

(** The positions found in one row, with the columns counted from [off]. *)
Lemma rowHits_spec (cond : Q -> bool) (i off : nat) (row : list Q) :
  let hits := omap id (imap (fun j v =>
                if cond v then Some (i, (off + j)%nat) else None) row) in
  NoDup hits
  /\ forall p, p ∈ hits <->
       exists j v, p = (i, (off + j)%nat) /\ row !! j = Some v
                   /\ cond v = true.
Proof.
  revert off. induction row as [| x row IH]; intros off; cbn zeta.
  - cbn. split; [constructor |]. intros p. split.
    + intros H. inversion H.
    + intros (j & v & _ & H & _). discriminate.
  - rewrite imap_cons.
    rewrite (imap_ext _ (fun j v =>
               if cond v then Some (i, (S off + j)%nat) else None))
      by (intros j v _; cbn; rewrite Nat.add_succ_r; reflexivity).
    destruct (IH (S off)) as [IHnd IHel]. cbn [omap].
    assert (Hel : forall p,
      p ∈ omap id (imap (fun j v =>
            if cond v then Some (i, (S off + j)%nat) else None) row) <->
      exists j v, p = (i, (off + S j)%nat) /\ row !! j = Some v
                  /\ cond v = true).
    { intros p. rewrite IHel. split; intros (j & v & -> & H1 & H2);
        exists j, v; (split; [f_equal; lia | auto]). }
    destruct (cond x) eqn:Ex; cbn.
    + split.
      * constructor; [| exact IHnd].
        rewrite Hel. intros (j & v & Heq & _). inversion Heq. lia.
      * intros p. rewrite elem_of_cons, Hel. split.
        -- intros [-> | (j & v & -> & H1 & H2)].
           ++ exists 0%nat, x. auto.
           ++ exists (S j), v. auto.
        -- intros ([| j] & v & -> & H1 & H2).
           ++ left. reflexivity.
           ++ right. exists j, v. auto.
    + split; [exact IHnd |].
      intros p. rewrite Hel. split.
      * intros (j & v & -> & H1 & H2). exists (S j), v. auto.
      * intros ([| j] & v & -> & H1 & H2).
        -- cbn in H1. congruence.
        -- exists j, v. auto.
Qed.

(** The positions found in an array, with the rows counted from [off]. *)
Lemma rowsHits_spec (cond : Q -> bool) (off : nat) (a : Array) :
  let hits := mjoin (imap (fun i row =>
                omap id (imap (fun j v =>
                  if cond v then Some ((off + i)%nat, j) else None) row)) a) in
  NoDup hits
  /\ forall p, p ∈ hits <->
       exists i row v, p.1 = (off + i)%nat /\ a !! i = Some row
                       /\ row !! p.2 = Some v /\ cond v = true.
Proof.
  revert off. induction a as [| r a IH]; intros off; cbn zeta.
  - cbn. split; [constructor |]. intros p. split.
    + intros H. inversion H.
    + intros (i & row & v & _ & H & _). discriminate.
  - rewrite imap_cons. cbn [mjoin list_join].
    rewrite (imap_ext _ (fun i row =>
               omap id (imap (fun j v =>
                 if cond v then Some ((S off + i)%nat, j) else None) row)))
      by (intros i row _; cbn; rewrite Nat.add_succ_r; reflexivity).
    destruct (IH (S off)) as [IHnd IHel].
    destruct (rowHits_spec cond (off + 0) 0 r) as [Hnd Hel].
    cbn zeta in Hnd, Hel.
    split.
    + apply NoDup_app. split; [exact Hnd |]. split; [| exact IHnd].
      intros p Hp Hq. apply Hel in Hp as (j & v & -> & _).
      apply IHel in Hq as (i & row & w & Hi & _). cbn in Hi. lia.
    + intros p. rewrite elem_of_app, Hel, IHel. split.
      * intros [(j & v & -> & H1 & H2) | (i & row & v & Hi & H1 & H2 & H3)].
        -- exists 0%nat, r, v. cbn. auto.
        -- exists (S i), row, v. cbn. split; [lia | auto].
      * intros ([| i] & row & v & Hi & H1 & H2 & H3).
        -- left. cbn in H1. injection H1 as <-.
           exists p.2, v. destruct p as [pi pj]; cbn in *.
           subst pi. auto.
        -- right. exists i, row, v. cbn in H1. split; [lia | auto].
Qed.

Lemma where2d_NoDup (cond : Q -> bool) (a : Array) : NoDup (where2d cond a).
Proof. exact (proj1 (rowsHits_spec cond 0 a)). Qed.

Lemma where2d_elem (cond : Q -> bool) (a : Array) (p : nat * nat) :
  p ∈ where2d cond a <-> exists v, at2 a p = Some v /\ cond v = true.
Proof.
  unfold where2d. rewrite (proj2 (rowsHits_spec cond 0 a) p).
  unfold at2. split.
  - intros (i & row & v & Hi & H1 & H2 & H3). cbn in Hi. rewrite Hi, H1.
    exists v. auto.
  - intros (v & H & Hc). destruct (a !! p.1) as [row |] eqn:E;
      [| discriminate].
    exists p.1, row, v. auto.
Qed.

Lemma holdsMax_where2d (a : Array) (m : Q) (p : nat * nat) :
  np_max (mjoin a) = Ok m ->
  holdsMax a p <-> p ∈ where2d (fun v => Qeq_bool v m) a.
Proof.
  intros Hm. apply np_max_spec in Hm as [Hin Hle].
  rewrite where2d_elem. split.
  - intros (v & Hv & Hall). exists v. split; [exact Hv |].
    apply Qeq_bool_iff, Qle_antisym.
    + apply Hle, elem_of_join_at2. eauto.
    + apply elem_of_join_at2 in Hin as [p0 Hp0]. eapply Hall, Hp0.
  - intros (v & Hv & Heq). exists v. split; [exact Hv |].
    intros p' v' Hv'. apply Qeq_bool_iff in Heq.
    apply Qle_trans with m.
    + apply Hle, elem_of_join_at2. eauto.
    + apply Qle_lteq. right. symmetry. exact Heq.
Qed.

(** [argMax2d] on an array that is not empty: it returns a position of the
    maximum, says true when there is no other, and false when there is. *)
Lemma argMax2d_spec (a : Array) :
  mjoin a <> [] ->
  exists p u others,
    argMax2d a = Ok (p, u, others)
    /\ holdsMax a p
    /\ (u = true -> forall p', holdsMax a p' -> p' = p)
    /\ (u = false -> maxNotUnique a).
Proof.
  intros Hne. destruct (np_max_nonempty _ Hne) as [m Hm].
  unfold argMax2d. rewrite Hm. cbn [bindR].
  pose proof (where2d_NoDup (fun v => Qeq_bool v m) a) as Hnd.
  pose proof (fun p => holdsMax_where2d a m p Hm) as Hiff.
  destruct (where2d (fun v => Qeq_bool v m) a) as [| first others] eqn:E.
  - exfalso. pose proof Hm as Hm'. apply np_max_spec in Hm' as [Hin _].
    apply elem_of_join_at2 in Hin as [p0 Hp0].
    assert (H : holdsMax a p0).
    { exists m. split; [exact Hp0 |]. intros p' v' Hv'.
      apply np_max_spec in Hm as [_ Hle].
      apply Hle, elem_of_join_at2. eauto. }
    apply Hiff in H. inversion H.
  - exists first, (length (first :: others) =? 1)%nat, others.
    split; [reflexivity |].
    split; [apply Hiff; left |].
    split.
    + intros Hu p' Hp'. apply Nat.eqb_eq in Hu.
      destruct others; [| discriminate].
      apply Hiff in Hp'. apply list_elem_of_singleton in Hp'. exact Hp'.
    + intros Hu. apply Nat.eqb_neq in Hu.
      destruct others as [| second others]; [cbn in Hu; congruence |].
      exists first, second. split.
      * intros ->. apply NoDup_cons in Hnd as [Hnd _]. apply Hnd. left.
      * split; apply Hiff; [left | right; left].
Qed.

(** ** Centroid refinement *)

(** What [tweakCentroid] does with the answer of [argMax2d]. *)
Lemma tweakCentroid_run (st : ImageExaminer) (p : nat * nat) (u : bool)
    (others : list (nat * nat)) :
  argMax2d (data st) = Ok (p, u, others) ->
  tweakCentroid st
  = Ok (tt, if negb u || negb (nSatPixInBox st =? 0)%nat
            then refinedBy (center_of_mass (data st)) (emit PrintUsingCoM st)
            else refinedBy (ofNat p.1, ofNat p.2) st).
Proof.
  intros Ham. unfold tweakCentroid, bindM, self, lift. rewrite Ham.
  cbn [fst snd].
  destruct (negb u || negb (nSatPixInBox st =? 0)%nat); reflexivity.
Qed.

(** C3.  On a cutout that is not empty, [tweakCentroid] takes the centre of
    mass of the whole cutout as the peak exactly when the maximum occurs at
    more than one location or the count of saturated pixels is positive (it
    then prints that it does so); otherwise the peak is the one location of
    the maximum. *)
Theorem tweakCentroid_peak_choice (st : ImageExaminer) :
  mjoin (data st) <> [] ->
  exists st',
    tweakCentroid st = Ok (tt, st')
    /\ (maxNotUnique (data st) \/ (0 < nSatPixInBox st)%nat ->
        st' = refinedBy (center_of_mass (data st)) (emit PrintUsingCoM st))
    /\ (~ (maxNotUnique (data st) \/ (0 < nSatPixInBox st)%nat) ->
        exists p,
          holdsMax (data st) p
          /\ (forall p', holdsMax (data st) p' -> p' = p)
          /\ st' = refinedBy (ofNat p.1, ofNat p.2) st)
    /\ (PrintUsingCoM ∈ trace st' <->
        PrintUsingCoM ∈ trace st
        \/ maxNotUnique (data st) \/ (0 < nSatPixInBox st)%nat).
Proof.
  intros Hne.
  destruct (argMax2d_spec _ Hne) as (p & u & others & Ham & Hp & Hu & Hnu).
  rewrite (tweakCentroid_run st p u others Ham).
  destruct (negb u || negb (nSatPixInBox st =? 0)%nat) eqn:Ec.
  - assert (Hc : maxNotUnique (data st) \/ (0 < nSatPixInBox st)%nat).
    { apply orb_true_iff in Ec as [Ec | Ec].
      - left. apply Hnu. destruct u; [discriminate | reflexivity].
      - right. apply negb_true_iff, Nat.eqb_neq in Ec. lia. }
    eexists. split; [reflexivity |].
    split; [reflexivity |]. split; [tauto |].
    split; [auto |]. intros _.
    unfold refinedBy; cbn. rewrite !elem_of_app, !elem_of_cons. auto.
  - apply orb_false_iff in Ec as [Eu En].
    apply negb_false_iff in Eu, En. apply Nat.eqb_eq in En.
    assert (Hc : ~ (maxNotUnique (data st) \/ (0 < nSatPixInBox st)%nat)).
    { intros [(p1 & p2 & Hd & H1 & H2) | Hn]; [| lia].
      apply Hd. rewrite (Hu Eu p1 H1), (Hu Eu p2 H2). reflexivity. }
    eexists. split; [reflexivity |].
    split; [tauto |].
    split; [intros _; exists p; auto |].
    unfold refinedBy; cbn. rewrite elem_of_app, elem_of_cons.
    split; [| tauto].
    intros [H | [H | H]]; [auto | discriminate | inversion H].
Qed.

(** C3 on a cutout with two pixels at the maximum and none saturated. *)
Lemma tweakCentroid_peak_choice_witness :
  let st := withCutout twoPeaks 0 in
  mjoin (data st) <> []
  /\ exists st',
       tweakCentroid st = Ok (tt, st')
       /\ (maxNotUnique (data st) \/ (0 < nSatPixInBox st)%nat ->
           st' = refinedBy (center_of_mass (data st)) (emit PrintUsingCoM st))
       /\ (~ (maxNotUnique (data st) \/ (0 < nSatPixInBox st)%nat) ->
           exists p,
             holdsMax (data st) p
             /\ (forall p', holdsMax (data st) p' -> p' = p)
             /\ st' = refinedBy (ofNat p.1, ofNat p.2) st)
       /\ (PrintUsingCoM ∈ trace st' <->
           PrintUsingCoM ∈ trace st
           \/ maxNotUnique (data st) \/ (0 < nSatPixInBox st)%nat).
Proof.
  intros st. split; [discriminate |].
  apply (tweakCentroid_peak_choice st). discriminate.
Defined.

(** The two cases of C3 run: with two pixels at the maximum the centroid
    (100, 100) moves by the centre of mass (5/9, 5/9) less the half-size 1;
    with the single maximum at row 0, column 1 it moves by (0, -1) in
    (x, y). *)
Example tweakCentroid_twoPeaks :
  (centroid <$> (snd <$> (match tweakCentroid (withCutout twoPeaks 0) with
                          | Ok r => Some r | _ => None end)))
  = Some (Fin (896 # 9), Fin (896 # 9))
  /\ (centroid <$> (snd <$> (match tweakCentroid (withCutout onePeak 0) with
                             | Ok r => Some r | _ => None end)))
     = Some (Fin 100, Fin 99).
Proof. split; vm_compute; reflexivity. Qed.



(** ** Radii as real numbers *)

Lemma Q2R_zero : Q2R 0 = 0%R.
Proof. unfold Q2R; cbn; Lra.lra. Qed.

(** Comparing the square of a radius with the square of a bound is
    comparing the radius with the bound. *)
Lemma sq_le_real (d : radius) (b : Q) :
  (0 <= sq d)%Q -> (0 <= b)%Q ->
  ((sq d <= b * b)%Q <-> (toR d <= Q2R b)%R).
Proof.
  intros Hd Hb. unfold toR.
  apply Qle_Rle in Hd, Hb. rewrite Q2R_zero in Hd, Hb.
  split.
  - intros H. apply Qle_Rle in H. rewrite Q2R_mult in H.
    rewrite <- (sqrt_square (Q2R b)) by exact Hb.
    apply sqrt_le_1_alt. exact H.
  - intros H. apply Rle_Qle. rewrite Q2R_mult.
    apply sqrt_le_0; [exact Hd | Lra.nra |].
    rewrite sqrt_square by exact Hb. exact H.
Qed.



Lemma norm_sq_nonneg (v : Q * Q) : (0 <= sq (norm v))%Q.
Proof. unfold norm; cbn [sq]. nra. Qed.

Lemma withinHalfSize_real (data : Array) (i j : nat) :
  withinHalfSize data i j = true
  <-> (toR (pixelDist data i j) <= IZR (Z.of_nat (shape data).1 / 2))%R.
Proof.
  unfold withinHalfSize. rewrite Qle_bool_iff, inject_Z_mult.
  assert (Hk : (0 <= Z.of_nat (shape data).1 / 2)%Z)
    by (apply Z.div_pos; lia).
  rewrite sq_le_real.
  - unfold Q2R, inject_Z; cbn [Qnum Qden]. rewrite Rinv_1, Rmult_1_r.
    reflexivity.
  - apply norm_sq_nonneg.
  - change 0%Q with (inject_Z 0). rewrite <- Zle_Qle. exact Hk.
Qed.

Lemma withinHalfWidth_real (data : Array) (i j : nat) :
  withinHalfWidth data i j = true
  <-> (toR (pixelDist data i j) <= IZR (Z.of_nat (shape data).1) / 2)%R.
Proof.
  unfold withinHalfWidth. rewrite Qle_bool_iff.
  rewrite sq_le_real.
  - unfold Q2R; cbn [Qnum Qden]. reflexivity.
  - apply norm_sq_nonneg.
  - unfold Qle; cbn. lia.
Qed.

(** ** Radial samples *)

Lemma dist_gtb_withinHalfSize (data : Array) (i j : nat) :
  dist_gtb (pixelDist data i j) (Z.of_nat (shape data).1 / 2)
  = negb (withinHalfSize data i j).
Proof.
  unfold dist_gtb, withinHalfSize.
  destruct (Z.of_nat (shape data).1 / 2 <? 0) eqn:E; [| reflexivity].
  apply Z.ltb_lt in E.
  pose proof (Z.div_pos (Z.of_nat (shape data).1) 2). lia.
Qed.

(** The inner loop, over the columns [js] of row [i]. *)
Lemma radial_inner_loop (data : Array) (i : nat) (js : list nat)
    (acc : list radius * list Q) :
  foldl (fun acc j =>
           let value := getitem data i j in
           let d := norm (inject_Z (Z.of_nat i) - (Z.of_nat (shape data).1 # 2),
                          inject_Z (Z.of_nat j) - (Z.of_nat (shape data).2 # 2))%Q in
           if dist_gtb d (Z.of_nat (shape data).1 / 2) then acc
           else (acc.1 ++ [d], acc.2 ++ [value]))
    acc js
  = (acc.1 ++ (sampleOf data
                 <$> filter (fun p => withinHalfSize data p.1 p.2 = true)
                       ((fun j => (i, j)) <$> js)).*1,
     acc.2 ++ (sampleOf data
                 <$> filter (fun p => withinHalfSize data p.1 p.2 = true)
                       ((fun j => (i, j)) <$> js)).*2).
Proof.
  revert acc. induction js as [| j js IH]; intros acc.
  - cbn. rewrite !app_nil_r. destruct acc; reflexivity.
  - cbn [foldl]. rewrite IH. clear IH. cbn zeta.
    fold (pixelDist data i j). rewrite dist_gtb_withinHalfSize.
    rewrite fmap_cons, filter_cons. cbn [fst snd].
    destruct (decide (withinHalfSize data i j = true)) as [E | E].
    + rewrite E. cbn [negb fst snd]. rewrite !fmap_cons.
      unfold sampleOf at 1 3. cbn [fst snd].
      rewrite <- !app_assoc. reflexivity.
    + apply not_true_is_false in E. rewrite E. reflexivity.
Qed.

(** The outer loop, over the rows [rws]. *)
Lemma radial_outer_loop (data : Array) (rws : list nat)
    (acc : list radius * list Q) :
  foldl (fun acc i =>
    foldl (fun acc j =>
             let value := getitem data i j in
             let d := norm (inject_Z (Z.of_nat i) - (Z.of_nat (shape data).1 # 2),
                            inject_Z (Z.of_nat j) - (Z.of_nat (shape data).2 # 2))%Q in
             if dist_gtb d (Z.of_nat (shape data).1 / 2) then acc
             else (acc.1 ++ [d], acc.2 ++ [value]))
      acc (seq 0 (shape data).2))
    acc rws
  = (acc.1 ++ (sampleOf data
                 <$> filter (fun p => withinHalfSize data p.1 p.2 = true)
                       (i ← rws; pair i <$> seq 0 (shape data).2)).*1,
     acc.2 ++ (sampleOf data
                 <$> filter (fun p => withinHalfSize data p.1 p.2 = true)
                       (i ← rws; pair i <$> seq 0 (shape data).2)).*2).
Proof.
  revert acc. induction rws as [| i rws IH]; intros acc.
  - cbn. rewrite !app_nil_r. destruct acc; reflexivity.
  - cbn [foldl]. rewrite IH. clear IH.
    rewrite radial_inner_loop. cbn [fst snd].
    rewrite bind_cons, filter_app, !fmap_app, !app_assoc. reflexivity.
Qed.

Lemma radialSamples_eq (data : Array) :
  radialSamples data
  = ((sampleOf data
        <$> filter (fun p => withinHalfSize data p.1 p.2 = true)
              (pixels data)).*1,
     (sampleOf data
        <$> filter (fun p => withinHalfSize data p.1 p.2 = true)
              (pixels data)).*2).
Proof.
  unfold radialSamples. cbn zeta. cbn [fst snd].
  rewrite radial_outer_loop. reflexivity.
Qed.

Lemma samplesOf_eq (data : Array) :
  samplesOf data
  = sampleOf data
      <$> filter (fun p => withinHalfSize data p.1 p.2 = true) (pixels data).
Proof.
  unfold samplesOf. rewrite radialSamples_eq. cbn [fst snd].
  apply zip_fst_snd.
Qed.

Lemma elem_of_pixels (data : Array) (i j : nat) :
  (i, j) ∈ pixels data <-> (i < (shape data).1)%nat /\ (j < (shape data).2)%nat.
Proof.
  unfold pixels. rewrite list_elem_of_bind. split.
  - intros (i' & Hj & Hi). apply list_elem_of_fmap in Hj as (j' & [= -> ->] & Hj).
    apply elem_of_seq in Hi, Hj. lia.
  - intros [Hi Hj]. exists i. split.
    + apply list_elem_of_fmap. exists j. split; [reflexivity |].
      apply elem_of_seq. lia.
    + apply elem_of_seq. lia.
Qed.

(** C5, as the code has it.  The samples are those of the pixels whose
    distance from the centre (xlen/2, ylen/2) of the box is at most
    [xlen//2], the integer half of the length of the first axis, taken in
    the order of the loops; a pixel farther than [xlen//2] gives no
    sample. *)
Theorem radialSamples_within_half_size (data : Array) :
  length (radialSamples data).1 = length (radialSamples data).2
  /\ samplesOf data
     = sampleOf data
         <$> filter (fun p => withinHalfSize data p.1 p.2 = true)
               (pixels data)
  /\ (forall i j,
        withinHalfSize data i j = true
        <-> (toR (pixelDist data i j)
             <= IZR (Z.of_nat (shape data).1 / 2))%R)
  /\ (forall i j, (i < (shape data).1)%nat -> (j < (shape data).2)%nat ->
        (toR (pixelDist data i j) <= IZR (Z.of_nat (shape data).1 / 2))%R ->
        sampleOf data (i, j) ∈ samplesOf data)
  /\ (forall s, s ∈ samplesOf data ->
        exists i j, (i < (shape data).1)%nat /\ (j < (shape data).2)%nat
                    /\ s = sampleOf data (i, j)
                    /\ (toR (pixelDist data i j)
                        <= IZR (Z.of_nat (shape data).1 / 2))%R)
  /\ length (samplesOf data)
     = length (filter (fun p => withinHalfSize data p.1 p.2 = true)
                 (pixels data)).
Proof.
  split; [rewrite radialSamples_eq; cbn [fst snd];
          rewrite !length_fmap; reflexivity |].
  split; [apply samplesOf_eq |].
  split; [intros i j; apply withinHalfSize_real |].
  rewrite samplesOf_eq.
  split; [| split].
  - intros i j Hi Hj Hw. apply withinHalfSize_real in Hw.
    apply list_elem_of_fmap. exists (i, j).
    split; [reflexivity |]. apply list_elem_of_filter. split; [exact Hw |].
    apply elem_of_pixels. auto.
  - intros s Hs. apply list_elem_of_fmap in Hs as ([i j] & -> & Hp).
    apply list_elem_of_filter in Hp as [Hw Hp].
    apply elem_of_pixels in Hp as [Hi Hj]. cbn [fst snd] in Hw.
    apply withinHalfSize_real in Hw. exists i, j. auto.
  - apply length_fmap.
Qed.

(** C5 as stated fails on the 5 x 5 cutout: the pixel at row 1, column 1 is
    at distance sqrt(4.5) from the centre (2.5, 2.5), less than half the
    width, 2.5, but more than 5//2 = 2, and it gives no sample. *)
Lemma radialSamples_half_width_counterexample :
  ~ samplesFillHalfWidth ramp5.
Proof.
  intros H. specialize (H 1%nat 1%nat).
  assert (Hin : sampleOf ramp5 (1%nat, 1%nat) ∈ samplesOf ramp5).
  { apply H; [cbn; lia | cbn; lia |].
    apply withinHalfWidth_real. reflexivity. }
  vm_compute in Hin.
  repeat (apply elem_of_cons in Hin as [Hin | Hin]; [discriminate |]).
  inversion Hin.
Qed.

(** ** The encircled-energy radius *)

(** [np.argmin] stays inside the sequence. *)
Lemma argmin_loop_lt (l : list fnum) (i : nat) (mp : fnum) (k : nat) :
  (k < i)%nat -> (argmin_loop l i mp k < i + length l)%nat.
Proof.
  revert i mp k. induction l as [| x r IH]; intros i mp k Hk; cbn.
  - lia.
  - destruct (negb (fge x mp)).
    + destruct (isnan x); [lia |].
      specialize (IH (S i) x i). lia.
    + specialize (IH (S i) mp k). lia.
Qed.

Lemma argmin_lt (l : list fnum) (i : nat) :
  argmin l = Ok i -> (i < length l)%nat.
Proof.
  destruct l as [| x r]; cbn; [discriminate |].
  intros [= <-]. destruct (isnan x); [lia |].
  pose proof (argmin_loop_lt r 1 x 0). lia.
Qed.






Example getEncircledEnergyRadius_tie :
  getEncircledEnergyRadius 50 withTable = Ok (Sqrt (1 # 2)).
Proof. reflexivity. Qed.

(** ** The run of [radialAverageAndFit] *)

Lemma getEncircledEnergyRadius_total (percentage : Q) (s : ImageExaminer) :
  length (radii s) = length (cumFluxesNorm s) ->
  cumFluxesNorm s <> [] ->
  exists r, getEncircledEnergyRadius percentage s = Ok r.
Proof.
  intros Hlen Hne. unfold getEncircledEnergyRadius.
  destruct (argmin _) as [i | e |] eqn:E.
  - apply argmin_lt in E. rewrite length_fmap in E. cbn [bindR].
    destruct (radii s !! i) as [r |] eqn:Hr; [eauto |].
    apply lookup_ge_None in Hr. lia.
  - destruct (cumFluxesNorm s); [congruence | discriminate].
  - destruct (cumFluxesNorm s); discriminate.
Qed.

Section Run.

Variable curve_fit : list radius -> list Q -> Q * Q * Q -> Result (Q * Q * Q).



End Run.

(** ** The order of the samples *)

Lemma sample_le_iff (a b : radius * Q) :
  sample_le a b <->
  (sq a.1 < sq b.1)%Q \/ ((sq a.1 == sq b.1)%Q /\ (a.2 <= b.2)%Q).
Proof.
  unfold sample_le, sample_leb, dist_eqb, dist_leb.
  destruct (Qeq_bool (sq a.1) (sq b.1)) eqn:E.
  - apply Qeq_bool_iff in E. rewrite Qle_bool_iff. split.
    + intros H. right. auto.
    + intros [H | [_ H]]; [lra | exact H].
  - assert (Hne : ~ (sq a.1 == sq b.1)%Q).
    { intros H. apply Qeq_bool_iff in H. congruence. }
    rewrite Qle_bool_iff. split.
    + intros H. left. lra.
    + intros [H | [H _]]; [lra | contradiction].
Qed.

#[global] Instance sample_le_total : Total sample_le.
Proof.
  intros a b. rewrite !sample_le_iff.
  destruct (Q_dec (sq a.1) (sq b.1)) as [[H | H] | H]; [lra | lra |].
  destruct (Qlt_le_dec b.2 a.2) as [H' | H'].
  - right. right. split; lra.
  - left. right. split; lra.
Qed.

#[global] Instance sample_le_trans : Transitive sample_le.
Proof.
  intros a b c. rewrite !sample_le_iff. lra.
Qed.


Lemma sorted_perm (samples : list (radius * Q)) : sorted samples ≡ₚ samples.
Proof. apply merge_sort_Permutation. Qed.



Lemma samplesOf_snd (data : Array) :
  (samplesOf data).*2 = (radialSamples data).2.
Proof.
  unfold samplesOf. apply snd_zip.
  rewrite radialSamples_eq. cbn [fst snd]. rewrite !length_fmap. lia.
Qed.

(** ** Cumulative sums of values that are not negative *)

Lemma length_cumsum_from (l : list Q) (acc : Q) :
  length (cumsum_from acc l) = length l.
Proof. revert acc. induction l; intros acc; cbn; [| rewrite IHl]; reflexivity. Qed.

Lemma length_cumsum (l : list Q) : length (cumsum l) = length l.
Proof. destruct l; cbn; [| rewrite length_cumsum_from]; reflexivity. Qed.







(** ** The encircled-energy table *)





Section Table.

Variable curve_fit : list radius -> list Q -> Q * Q * Q -> Result (Q * Q * Q).
Variables st st' : ImageExaminer.
Hypothesis Hrun : radialAverageAndFit curve_fit st = Ok (tt, st').
Hypothesis Hpos : forall v, v ∈ radialValues st' -> (0 <= v)%Q.




Variables (d : radius) (v : Q).
Hypothesis Hlast : last (sorted (samplesOf (data st))) = Some (d, v).
Hypothesis Hv : (0 < v)%Q.




End Table.





(** ** The fit that does not converge *)

Lemma sorted_nonempty (samples : list (radius * Q)) :
  samples <> [] -> sorted samples <> [].
Proof.
  intros Hne Hs. apply Hne. apply Permutation_nil_r.
  rewrite <- Hs. symmetry. apply sorted_perm.
Qed.

Lemma cumsum_nonempty (l : list Q) : l <> [] -> cumsum l <> [].
Proof. destruct l; [congruence | discriminate]. Qed.

Lemma fmap_nonempty {A B : Type} (f : A -> B) (l : list A) :
  l <> [] -> f <$> l <> [].
Proof. destruct l; [congruence | discriminate]. Qed.

(** The statistics after a run of [radialAverageAndFit] in which the fit
    raised a [RuntimeError]: the run returns, and the structure has gained
    the three not-a-number entries of the handler and the three radii. *)
Lemma radialAverageAndFit_fit_failed
    (curve_fit : list radius -> list Q -> Q * Q * Q -> Result (Q * Q * Q))
    (st : ImageExaminer) (msg : string) :
  samplesOf (data st) <> [] ->
  (forall p0, curve_fit (radialSamples (data st)).1 (radialSamples (data st)).2 p0
              = Raise (RuntimeError msg)) ->
  exists st' r50 r80 r90,
    radialAverageAndFit curve_fit st = Ok (tt, st')
    /\ imStats st'
       = <["eeRadius90" := VDist r90]>
           (<["eeRadius80" := VDist r80]>
              (<["eeRadius50" := VDist r50]>
                 (<["fitFwhm" := VNum NaN]>
                    (<["fitMean" := VNum NaN]>
                       (<["fitAmp" := VNum NaN]> (imStats st)))))).
Proof.
  intros Hne Hfit.
  assert (Hvals : (radialSamples (data st)).2 <> []).
  { rewrite <- samplesOf_snd. apply fmap_nonempty, Hne. }
  destruct (np_max_nonempty _ Hvals) as [amp Hamp].
  assert (Hcum : cumsum (sorted (samplesOf (data st))).*2 <> []).
  { apply cumsum_nonempty, fmap_nonempty, sorted_nonempty, Hne. }
  destruct (np_max_nonempty _ Hcum) as [m Hm].
  unfold radialAverageAndFit. unfold bindM at 1, self at 1.
  unfold bindM at 1, lift at 1. rewrite Hamp.
  unfold bindM at 1, fitGauss at 1. rewrite Hfit.
  unfold bindM at 1, setStat at 1, assign at 1.
  unfold bindM at 1, setStat at 1, assign at 1.
  unfold bindM at 1, setStat at 1, assign at 1.
  unfold ret at 1. unfold bindM at 1, ret at 1.
  unfold bindM at 1, assign at 1.
  fold (samplesOf (data st)).
  unfold bindM at 1, lift at 1. rewrite Hm.
  unfold bindM at 1, assign at 1.
  unfold bindM at 1, lift at 1.
  match goal with
  | |- context [getEncircledEnergyRadius 50 ?s] =>
      destruct (getEncircledEnergyRadius_total 50 s) as [r50 H50]
  end.
  { cbn. rewrite !length_fmap, length_cumsum, length_fmap. reflexivity. }
  { cbn. apply fmap_nonempty, Hcum. }
  rewrite H50.
  unfold bindM at 1, setStat at 1, assign at 1.
  unfold bindM at 1, lift at 1.
  match goal with
  | |- context [getEncircledEnergyRadius 80 ?s] =>
      destruct (getEncircledEnergyRadius_total 80 s) as [r80 H80]
  end.
  { cbn. rewrite !length_fmap, length_cumsum, length_fmap. reflexivity. }
  { cbn. apply fmap_nonempty, Hcum. }
  rewrite H80.
  unfold bindM at 1, setStat at 1, assign at 1.
  unfold bindM at 1, lift at 1.
  match goal with
  | |- context [getEncircledEnergyRadius 90 ?s] =>
      destruct (getEncircledEnergyRadius_total 90 s) as [r90 H90]
  end.
  { cbn. rewrite !length_fmap, length_cumsum, length_fmap. reflexivity. }
  { cbn. apply fmap_nonempty, Hcum. }
  rewrite H90.
  unfold setStat, assign.
  eexists. exists r50, r80, r90. split; reflexivity.
Qed.

(** C8 on the code.  When the fit raises a [RuntimeError] the run of
    [radialAverageAndFit] goes on and returns, with not-a-number recorded
    under [fitAmp] and [fitFwhm]; but the handler records the third
    not-a-number under [fitMean], while the report and the plots read the
    fitted mean under [fitGausMean]: that attribute stays unset, its line of
    the statistics panel is empty, and [plotRadialAverage] raises an
    attribute error when it reads the fit parameters. *)
Theorem fit_failure_leaves_fitGausMean_unset
    (curve_fit : list radius -> list Q -> Q * Q * Q -> Result (Q * Q * Q))
    (st : ImageExaminer) (msg : string) :
  samplesOf (data st) <> [] ->
  (forall p0, curve_fit (radialSamples (data st)).1 (radialSamples (data st)).2 p0
              = Raise (RuntimeError msg)) ->
  imStats st !! "fitGausMean" = None ->
  exists st',
    radialAverageAndFit curve_fit st = Ok (tt, st')
    /\ imStats st' !! "fitAmp" = Some (VNum NaN)
    /\ imStats st' !! "fitFwhm" = Some (VNum NaN)
    /\ imStats st' !! "fitMean" = Some (VNum NaN)
    /\ imStats st' !! "fitGausMean" = None
    /\ plotRadialAverage_pars st' = Raise (AttributeError "fitGausMean")
    /\ translateStats (imStats st') cutoutMappings !! 2%nat = Some EmptyLine
    /\ "fitGausMean" ∈ missingFields (imStats st') cutoutMappings.
Proof.
  intros Hne Hfit Hunset.
  destruct (radialAverageAndFit_fit_failed curve_fit st msg Hne Hfit)
    as (st' & r50 & r80 & r90 & Hrun & Hstats).
  exists st'. split; [exact Hrun |].
  assert (Hamp : imStats st' !! "fitAmp" = Some (VNum NaN))
    by (rewrite Hstats; simplify_map_eq; reflexivity).
  assert (Hfwhm : imStats st' !! "fitFwhm" = Some (VNum NaN))
    by (rewrite Hstats; simplify_map_eq; reflexivity).
  assert (Hmean : imStats st' !! "fitMean" = Some (VNum NaN))
    by (rewrite Hstats; simplify_map_eq; reflexivity).
  assert (Hgaus : imStats st' !! "fitGausMean" = None)
    by (rewrite Hstats; simplify_map_eq; exact Hunset).
  repeat (split; [assumption |]).
  split; [| split].
  - unfold plotRadialAverage_pars, getattr. rewrite Hamp, Hgaus. reflexivity.
  - unfold translateStats, cutoutMappings, getattr. cbn. rewrite Hgaus.
    reflexivity.
  - unfold missingFields. apply list_elem_of_fmap.
    exists ("fitGausMean", "Radial fitted position").
    split; [reflexivity |]. apply list_elem_of_filter.
    split; [exact Hgaus |]. unfold cutoutMappings.
    do 2 right. left.
Qed.

(** C8 on the 5 x 5 star with a fit that does not converge. *)
Lemma fit_failure_leaves_fitGausMean_unset_witness :
  let st := withCutout star5 0 in
  samplesOf (data st) <> []
  /\ imStats st !! "fitGausMean" = None
  /\ exists st',
       radialAverageAndFit fitFails st = Ok (tt, st')
       /\ imStats st' !! "fitAmp" = Some (VNum NaN)
       /\ imStats st' !! "fitFwhm" = Some (VNum NaN)
       /\ imStats st' !! "fitMean" = Some (VNum NaN)
       /\ imStats st' !! "fitGausMean" = None
       /\ plotRadialAverage_pars st' = Raise (AttributeError "fitGausMean")
       /\ translateStats (imStats st') cutoutMappings !! 2%nat
          = Some EmptyLine
       /\ "fitGausMean" ∈ missingFields (imStats st') cutoutMappings.
Proof.
  intros st.
  assert (Hne : samplesOf (data st) <> []) by (vm_compute; discriminate).
  split; [exact Hne |]. split; [reflexivity |].
  apply (fit_failure_leaves_fitGausMean_unset fitFails st
           "Optimal parameters not found" Hne);
    [intros p0; reflexivity | reflexivity].
Defined.

(** The whole analysis on the 9 x 9 chip, started at (3, 4) with half-size
    2, with a fit that does not converge: it returns an examiner, refined to
    (4, 4), whose statistics hold [fitMean] and no [fitGausMean], the only
    attribute of the three blocks of the panel that is missing; with a fit
    that returns, none is missing. *)
Example init_fit_failure :
  (exists s,
     __init__ fitFails detectsNothing metadata 3 starChip true
       (Some (ofZ 3, ofZ 4)) 2 = Ok s
     /\ centroid s = (Fin 4, Fin 4)
     /\ imStats s !! "fitAmp" = Some (VNum NaN)
     /\ imStats s !! "fitMean" = Some (VNum NaN)
     /\ imStats s !! "fitGausMean" = None
     /\ plotRadialAverage_pars s = Raise (AttributeError "fitGausMean")
     /\ missingFields (imStats s) astroMappings = []
     /\ missingFields (imStats s) imageMappings = []
     /\ missingFields (imStats s) cutoutMappings = ["fitGausMean"])
  /\ (exists s,
        __init__ fitReturns detectsNothing metadata 3 starChip true
          (Some (ofZ 3, ofZ 4)) 2 = Ok s
        /\ imStats s !! "fitGausMean" = Some (VNum (Fin 0))
        /\ imStats s !! "fitMean" = None
        /\ missingFields (imStats s) astroMappings = []
        /\ missingFields (imStats s) imageMappings = []
        /\ missingFields (imStats s) cutoutMappings = []).
Proof.
  split.
  - exists (match __init__ fitFails detectsNothing metadata 3 starChip true
                    (Some (ofZ 3, ofZ 4)) 2 with
            | Ok s => s
            | _ => blank starChip true 2 (NaN, NaN)
            end).
    repeat (split; [vm_compute; reflexivity |]). vm_compute; reflexivity.
  - exists (match __init__ fitReturns detectsNothing metadata 3 starChip true
                    (Some (ofZ 3, ofZ 4)) 2 with
            | Ok s => s
            | _ => blank starChip true 2 (NaN, NaN)
            end).
    repeat (split; [vm_compute; reflexivity |]). vm_compute; reflexivity.
Qed.

(** ** What the methods keep *)

Section Preserves.

Variable R : ImageExaminer -> ImageExaminer -> Prop.
Hypothesis R_refl : forall s, R s s.
Hypothesis R_trans : forall s1 s2 s3, R s1 s2 -> R s2 s3 -> R s1 s3.

Lemma preserves_ret {A : Type} (a : A) : preserves R (ret a).
Proof. intros s a' s' [= <- <-]. apply R_refl. Qed.

Lemma preserves_lift {A : Type} (r : Result A) : preserves R (lift r).
Proof.
  intros s a s'. unfold lift. destruct r; try discriminate.
  intros [= <- <-]. apply R_refl.
Qed.

Lemma preserves_self {A : Type} (f : ImageExaminer -> A) :
  preserves R (self f).
Proof. intros s a s' [= <- <-]. apply R_refl. Qed.

Lemma preserves_assign (upd : ImageExaminer -> ImageExaminer) :
  (forall s, R s (upd s)) -> preserves R (assign upd).
Proof. intros H s a s' [= <- <-]. apply H. Qed.

Lemma preserves_bind {A B : Type} (m : Method A) (k : A -> Method B) :
  preserves R m -> (forall a, preserves R (k a)) -> preserves R (bindM m k).
Proof.
  intros Hm Hk s b s'. unfold bindM.
  destruct (m s) as [[a s1] | |] eqn:E; try discriminate.
  intros H. eapply R_trans; [eapply Hm, E | eapply Hk, H].
Qed.

Lemma preserves_run {A : Type} (f : ImageExaminer -> Result A) :
  preserves R (fun s => lift (f s) s).
Proof.
  intros s a s'. unfold lift. destruct (f s); try discriminate.
  intros [= <- <-]. apply R_refl.
Qed.

Hypothesis R_boxHalfSize : forall v s, R s (set_boxHalfSize v s).
Hypothesis R_emit :
  forall ev s, ev <> RunQuickFrameMeasurement -> R s (emit ev s).
Hypothesis R_starBbox : forall v s, R s (set_starBbox v s).
Hypothesis R_nSat : forall v s, R s (set_nSatPixInBox v s).
Hypothesis R_data : forall v s, R s (set_data v s).
Hypothesis R_imStats : forall v s, R s (set_imStats v s).
Hypothesis R_radial : forall ds vs s, R s (set_radial ds vs s).
Hypothesis R_table : forall rs cf cfn s, R s (set_table rs cf cfn s).

Lemma preserves_calcBbox (fuel : nat) (c : Centroid) :
  preserves R (_calcBbox fuel c).
Proof.
  induction fuel as [| fuel IH]; [intros s a s'; discriminate |].
  rewrite calcBbox_unfold.
  apply preserves_bind; [apply preserves_lift |]. intros p.
  apply preserves_bind; [apply preserves_self |]. intros h.
  apply preserves_bind; [apply preserves_self |]. intros e.
  cbn zeta. destruct (negb _); [| apply preserves_ret].
  apply preserves_bind; [apply preserves_lift |]. intros m.
  apply preserves_bind;
    [apply preserves_assign; intros s; apply R_emit; discriminate |].
  intros _.
  apply preserves_bind; [apply preserves_assign, R_boxHalfSize |]. intros _.
  exact IH.
Qed.

Lemma preserves_getStarBoxData (fuel : nat) :
  preserves R (getStarBoxData fuel).
Proof.
  unfold getStarBoxData.
  apply preserves_bind; [apply preserves_self |]. intros c.
  apply preserves_bind; [apply preserves_calcBbox |]. intros b.
  apply preserves_bind; [apply preserves_assign, R_starBbox |]. intros _.
  apply preserves_bind; [apply preserves_self |]. intros e.
  apply preserves_bind; [apply preserves_lift |]. intros ma.
  apply preserves_bind; [apply preserves_assign, R_nSat |]. intros _.
  apply preserves_lift.
Qed.

Lemma preserves_setStat (k : string) (v : Value) : preserves R (setStat k v).
Proof. apply preserves_assign. intros s. apply R_imStats. Qed.

Lemma preserves_fitGauss
    (curve_fit : list radius -> list Q -> Q * Q * Q -> Result (Q * Q * Q))
    (ds : list radius) (vs : list Q) (p0 : Q * Q * Q) :
  preserves R (fitGauss curve_fit ds vs p0).
Proof.
  assert (Hfailed : preserves R
            (setStat "fitAmp" (VNum NaN) ;>
             setStat "fitMean" (VNum NaN) ;>
             setStat "fitFwhm" (VNum NaN) ;>
             (ret None : Method (option (Q * Q * Q))))).
  { repeat (apply preserves_bind; [apply preserves_setStat | intros _]).
    apply preserves_ret. }
  unfold fitGauss.
  destruct (curve_fit ds vs p0) as [pars | [] |];
    first [exact Hfailed | apply preserves_ret | apply preserves_lift].
Qed.

Lemma preserves_radialAverageAndFit
    (curve_fit : list radius -> list Q -> Q * Q * Q -> Result (Q * Q * Q)) :
  preserves R (radialAverageAndFit curve_fit).
Proof.
  unfold radialAverageAndFit.
  apply preserves_bind; [apply preserves_self |]. intros d.
  apply preserves_bind; [apply preserves_lift |]. intros amp.
  apply preserves_bind; [apply preserves_fitGauss |]. intros pars.
  apply preserves_bind.
  { destruct pars; [| apply preserves_ret].
    repeat (apply preserves_bind; [apply preserves_setStat | intros _]).
    apply preserves_setStat. }
  intros _.
  apply preserves_bind; [apply preserves_assign, R_radial |]. intros _.
  cbn zeta.
  apply preserves_bind; [apply preserves_lift |]. intros m.
  apply preserves_bind; [apply preserves_assign, R_table |]. intros _.
  apply preserves_bind; [apply preserves_run |]. intros r50.
  apply preserves_bind; [apply preserves_setStat |]. intros _.
  apply preserves_bind; [apply preserves_run |]. intros r80.
  apply preserves_bind; [apply preserves_setStat |]. intros _.
  apply preserves_bind; [apply preserves_run |]. intros r90.
  apply preserves_setStat.
Qed.

Variable curve_fit : list radius -> list Q -> Q * Q * Q -> Result (Q * Q * Q).
Variable externalStat : Exposure -> string -> Value.

(** [__init__] after the two cutouts: the statistics and the fit. *)
Lemma preserves_report :
  preserves R
    (e <- self exp ;
     stats <- lift (getImageStats externalStat e) ;
     assign (set_imStats stats) ;>
     c <- self centroid ;
     setStat "centroid" (VCentroid c) ;>
     ic <- lift (np.array_int c) ;
     setStat "intCentroid" (VPoint ic) ;>
     rx <- lift (py_round c.1) ;
     ry <- lift (py_round c.2) ;
     setStat "intCentroidRounded" (VPoint (rx, ry)) ;>
     n <- self nSatPixInBox ;
     setStat "nStatPixInBox" (VInt (Z.of_nat n)) ;>
     radialAverageAndFit curve_fit).
Proof.
  apply preserves_bind; [apply preserves_self |]. intros e.
  apply preserves_bind; [apply preserves_lift |]. intros stats.
  apply preserves_bind; [apply preserves_assign, R_imStats |]. intros _.
  apply preserves_bind; [apply preserves_self |]. intros c.
  apply preserves_bind; [apply preserves_setStat |]. intros _.
  apply preserves_bind; [apply preserves_lift |]. intros ic.
  apply preserves_bind; [apply preserves_setStat |]. intros _.
  apply preserves_bind; [apply preserves_lift |]. intros rx.
  apply preserves_bind; [apply preserves_lift |]. intros ry.
  apply preserves_bind; [apply preserves_setStat |]. intros _.
  apply preserves_bind; [apply preserves_self |]. intros n.
  apply preserves_bind; [apply preserves_setStat |]. intros _.
  apply preserves_radialAverageAndFit.
Qed.

(** With the refinement switched off, the whole analysis keeps what the
    methods other than [tweakCentroid] keep. *)
Lemma analyse_without_tweak (fuel : nat) (s s' : ImageExaminer) :
  (forall s1 s2, R s1 s2 -> doTweakCentroid s2 = doTweakCentroid s1) ->
  doTweakCentroid s = false ->
  analyse curve_fit externalStat fuel s = Ok (tt, s') ->
  R s s'.
Proof.
  intros Hsw Hoff. unfold analyse. unfold bindM at 1.
  destruct (getStarBoxData fuel s) as [[d s1] | |] eqn:E1; try discriminate.
  pose proof (preserves_getStarBoxData fuel _ _ _ E1) as H1.
  unfold bindM at 1, assign at 1. unfold bindM at 1, self at 1.
  assert (Hoff2 : doTweakCentroid (set_data d s1) = false).
  { rewrite <- Hoff. apply Hsw. eapply R_trans; [exact H1 | apply R_data]. }
  rewrite Hoff2. unfold bindM at 1, ret at 1.
  intros H. apply preserves_report in H.
  eapply R_trans; [exact H1 |]. eapply R_trans; [apply R_data | exact H].
Qed.

Hypothesis R_centroid : forall v s, R s (set_centroid v s).

Lemma preserves_tweakCentroid : preserves R tweakCentroid.
Proof.
  unfold tweakCentroid.
  apply preserves_bind; [apply preserves_self |]. intros d.
  apply preserves_bind; [apply preserves_lift |]. intros am.
  cbn zeta.
  apply preserves_bind; [apply preserves_self |]. intros n.
  apply preserves_bind.
  { destruct (negb _ || negb _); [| apply preserves_ret].
    apply preserves_bind; [| intros _; apply preserves_ret].
    apply preserves_assign. intros s. apply R_emit. discriminate. }
  intros peak.
  apply preserves_bind; [apply preserves_self |]. intros h.
  apply preserves_bind;
    [apply preserves_assign; intros s; apply R_emit; discriminate |].
  intros _.
  apply preserves_bind; [apply preserves_self |]. intros c.
  apply preserves_assign, R_centroid.
Qed.

Lemma preserves_analyse (fuel : nat) :
  preserves R (analyse curve_fit externalStat fuel).
Proof.
  unfold analyse.
  apply preserves_bind; [apply preserves_getStarBoxData |]. intros d.
  apply preserves_bind; [apply preserves_assign, R_data |]. intros _.
  apply preserves_bind; [apply preserves_self |]. intros tweak.
  apply preserves_bind; [| intros _; apply preserves_report].
  destruct tweak; [| apply preserves_ret].
  apply preserves_bind; [apply preserves_tweakCentroid |]. intros _.
  apply preserves_bind; [apply preserves_getStarBoxData |]. intros d'.
  apply preserves_assign, R_data.
Qed.

End Preserves.

Lemma analyse_noDetection
    (curve_fit : list radius -> list Q -> Q * Q * Q -> Result (Q * Q * Q))
    (externalStat : Exposure -> string -> Value) (fuel : nat) :
  preserves noDetection (analyse curve_fit externalStat fuel).
Proof.
  apply preserves_analyse; unfold noDetection; try (intros; assumption).
  - intros s1 s2 s3 H12 H23 H. auto.
  - intros ev s Hev H. cbn in H. apply elem_of_app in H as [H | H];
      [exact H |].
    apply list_elem_of_singleton in H. congruence.
Qed.

Lemma analyse_sameCentroid
    (curve_fit : list radius -> list Q -> Q * Q * Q -> Result (Q * Q * Q))
    (externalStat : Exposure -> string -> Value) (fuel : nat)
    (s s' : ImageExaminer) :
  doTweakCentroid s = false ->
  analyse curve_fit externalStat fuel s = Ok (tt, s') ->
  centroid s' = centroid s.
Proof.
  intros Hoff Hrun.
  apply (analyse_without_tweak sameCentroid) in Hrun;
    unfold sameCentroid in *; try tauto; try (intros; split; reflexivity).
  intros s1 s2 s3 [H1 H2] [H3 H4]. split; congruence.
Qed.

(** ** Where the centroid comes from *)

(** C9.  Started without a centroid, [__init__] raises a [RuntimeError]
    when the detection task reports no success.  Started with a centroid,
    it does not depend on the detection task, the task does not appear
    among the events of the run, the analysis starts from the centroid
    given, and with the refinement switched off that centroid is the one
    the examiner ends with. *)
Theorem init_centroid_source
    (curve_fit : list radius -> list Q -> Q * Q * Q -> Result (Q * Q * Q))
    (qfmTask_run : Exposure -> QfmResult)
    (externalStat : Exposure -> string -> Value)
    (fuel : nat) (e : Exposure) (doTweak : bool) (h : Z) :
  (success (qfmTask_run e) = false ->
   exists msg,
     __init__ curve_fit qfmTask_run externalStat fuel e doTweak None h
     = Raise (RuntimeError msg))
  /\ forall c : Centroid,
       initialCentroid qfmTask_run e (Some c) = Ok (c, [])
       /\ (forall qfm',
             __init__ curve_fit qfm' externalStat fuel e doTweak (Some c) h
             = __init__ curve_fit qfmTask_run externalStat fuel e doTweak
                 (Some c) h)
       /\ __init__ curve_fit qfmTask_run externalStat fuel e doTweak (Some c) h
          = bindR (analyse curve_fit externalStat fuel (blank e doTweak h c))
              (fun r => Ok r.2)
       /\ forall s,
            __init__ curve_fit qfmTask_run externalStat fuel e doTweak
              (Some c) h = Ok s ->
            (RunQuickFrameMeasurement ∉ trace s)
            /\ (doTweak = false -> centroid s = c).
Proof.
  split.
  - intros Hfail. unfold __init__, initialCentroid. rewrite Hfail. cbn.
    eexists. reflexivity.
  - intros c. split; [reflexivity |]. split; [reflexivity |].
    split; [reflexivity |].
    intros s. unfold __init__, initialCentroid. cbn [bindR fst snd].
    fold (blank e doTweak h c).
    destruct (analyse curve_fit externalStat fuel (blank e doTweak h c))
      as [[[] s'] | |] eqn:E; try discriminate.
    cbn. intros [= <-]. split.
    + intros Hin. apply (analyse_noDetection _ _ _ _ _ _ E) in Hin.
      cbn in Hin. inversion Hin.
    + intros ->.
      exact (analyse_sameCentroid curve_fit externalStat fuel
               (blank e false h c) s' eq_refl E).
Qed.

(** C9 on the 9 x 9 chip, whose detection finds nothing. *)
Lemma init_centroid_source_witness :
  success (detectsNothing starChip) = false
  /\ (exists msg,
        __init__ fitReturns detectsNothing metadata 3 starChip false None 2
        = Raise (RuntimeError msg))
  /\ initialCentroid detectsNothing starChip (Some (ofZ 3, ofZ 4))
     = Ok ((ofZ 3, ofZ 4), []).
Proof.
  destruct (init_centroid_source fitReturns detectsNothing metadata 3
              starChip false 2) as [Hnone Hsome].
  split; [reflexivity |]. split; [apply Hnone; reflexivity |].
  exact (proj1 (Hsome (ofZ 3, ofZ 4))).
Defined.

(** The run with the centroid (3, 4) given and the refinement switched
    off, on the chip whose detection finds nothing: the examiner is built,
    around the centroid given, and nothing was printed or detected. *)
Example init_with_centroid :
  exists s,
    __init__ fitReturns detectsNothing metadata 3 starChip false
      (Some (ofZ 3, ofZ 4)) 2 = Ok s
    /\ centroid s = (ofZ 3, ofZ 4)
    /\ starBbox s = squareAt 3 4 2
    /\ trace s = [].
Proof.
  exists (match __init__ fitReturns detectsNothing metadata 3 starChip false
                  (Some (ofZ 3, ofZ 4)) 2 with
          | Ok s => s
          | _ => blank starChip false 2 (NaN, NaN)
          end).
  repeat (split; [vm_compute; reflexivity |]). vm_compute; reflexivity.
Qed.

(** * Further properties of the code *)

(** ** The box that [_calcBbox] returns *)

(** A clipped box lies inside the box it was clipped to. *)
Lemma clippedTo_contains (b chip : geom.Box2I) :
  geom.isEmpty b = true \/ (0 < geom.getWidth b /\ 0 < geom.getHeight b) ->
  geom.contains chip (geom.clippedTo b chip) = true.
Proof.
  intros Hb. unfold geom.clippedTo.
  destruct (geom.isEmpty b) eqn:Eb.
  - unfold geom.contains. rewrite Eb. reflexivity.
  - destruct (geom.isEmpty chip) eqn:Ec; [reflexivity |].
    cbn zeta.
    destruct ((_ <? _) || (_ <? _)) eqn:E; [reflexivity |].
    unfold geom.contains. rewrite Ec.
    destruct b as [[bx by_] [bw bh]], chip as [[cx cy] [cw ch]].
    unfold_geom. lia.
Qed.

(** A dilated box is empty or has positive dimensions. *)
Lemma dilatedBy_pixel_shape (p : Z * Z) (h : Z) :
  let b := geom.dilatedBy (geom.Box2I_ p (1, 1)) h in
  geom.isEmpty b = true \/ (0 < geom.getWidth b /\ 0 < geom.getHeight b).
Proof.
  cbn zeta. unfold geom.Box2I_; cbn. unfold geom.dilatedBy; cbn.
  destruct ((1 + 2 * h <=? 0) || (1 + 2 * h <=? 0)) eqn:E.
  - left. reflexivity.
  - right. unfold_geom. lia.
Qed.

(** X1.  Whatever the centroid, the half-size and the depth of the calls,
    a box that [_calcBbox] returns has equal width and height and lies
    inside the box of the exposure; the call leaves the exposure and the
    centroid of the examiner alone, and a half-size it has changed is not
    negative. *)
Theorem calcBbox_returns_square_inside (fuel : nat) (c : Centroid)
    (st st' : ImageExaminer) (bbox : geom.Box2I) :
  _calcBbox fuel c st = Ok (bbox, st') ->
  geom.getWidth bbox = geom.getHeight bbox
  /\ geom.contains (getBBox (exp st)) bbox = true
  /\ exp st' = exp st
  /\ centroid st' = centroid st
  /\ (boxHalfSize st' = boxHalfSize st \/ 0 <= boxHalfSize st').
Proof.
  revert st. induction fuel as [| fuel IH]; intros st; [discriminate |].
  rewrite calcBbox_unfold. unfold bindM at 1, lift at 1.
  destruct (geom.Point2I c) as [p | |]; try discriminate.
  unfold bindM at 1, self at 1. unfold bindM at 1, self at 1.
  cbn zeta.
  destruct (negb _) eqn:Esq.
  - unfold bindM at 1, lift at 1.
    destruct (_calcMaxBoxHalfSize c (getBBox (exp st))) as [m | |] eqn:Em;
      try discriminate.
    unfold bindM at 1, assign at 1. unfold bindM at 1, assign at 1.
    intros H. apply IH in H. cbn [exp centroid boxHalfSize set_boxHalfSize emit] in H.
    destruct H as (H1 & H2 & H3 & H4 & H5).
    repeat (split; [assumption |]).
    right. destruct H5 as [-> | H5]; [| exact H5].
    unfold _calcMaxBoxHalfSize in Em.
    destruct (np.array_int c) as [xy | |]; try discriminate.
    cbn [bindR] in Em. destruct (0 <=? _) eqn:E0; [| discriminate].
    injection Em as <-. lia.
  - unfold ret. intros [= <- <-].
    apply negb_false_iff, Z.eqb_eq in Esq.
    split; [exact Esq |].
    split; [apply clippedTo_contains, dilatedBy_pixel_shape |].
    auto.
Qed.

(** X1 at the pixel (5, 7) of the 200 x 200 chip with half-size 50. *)
Lemma calcBbox_returns_square_inside_witness :
  let st := blank chip200 true 50 (ofZ 5, ofZ 7) in
  let st' := set_boxHalfSize 5 (emit (PrintShrunk (ofZ 5, ofZ 7) 50 5) st) in
  _calcBbox 2 (ofZ 5, ofZ 7) st = Ok (squareAt 5 7 5, st')
  /\ geom.getWidth (squareAt 5 7 5) = geom.getHeight (squareAt 5 7 5)
  /\ geom.contains (getBBox (exp st)) (squareAt 5 7 5) = true
  /\ exp st' = exp st
  /\ centroid st' = centroid st
  /\ (boxHalfSize st' = boxHalfSize st \/ 0 <= boxHalfSize st').
Proof.
  intros st st'.
  assert (Hrun : _calcBbox 2 (ofZ 5, ofZ 7) st = Ok (squareAt 5 7 5, st'))
    by reflexivity.
  split; [exact Hrun |].
  exact (calcBbox_returns_square_inside 2 (ofZ 5, ofZ 7) st st' _ Hrun).
Defined.

(** ** The largest half-size *)

(** X2.  For a centroid on a pixel of the chip, [_calcMaxBoxHalfSize]
    returns a half-size that is not negative, and it is the largest one
    whose square around the pixel lies inside the chip: the square of a
    half-size [h] fits exactly when [h] is at most the result. *)
Theorem calcMaxBoxHalfSize_largest_square (x y : Z) (chip : geom.Box2I) :
  geom.contains chip (squareAt x y 0) = true ->
  exists m,
    _calcMaxBoxHalfSize (ofZ x, ofZ y) chip = Ok m
    /\ 0 <= m
    /\ forall h, 0 <= h ->
         (geom.contains chip (squareAt x y h) = true <-> h <= m).
Proof.
  intros Hin.
  assert (Hx : geom.getBeginX chip <= x < geom.getEndX chip)
    by (unfold squareAt in Hin; unfold_geom; lia).
  assert (Hy : geom.getBeginY chip <= y < geom.getEndY chip)
    by (unfold squareAt in Hin; unfold_geom; lia).
  eexists. split; [apply calcMaxBoxHalfSize_inside; assumption |].
  unfold np.min4. split; [lia |].
  intros h Hh. unfold squareAt in *. unfold_geom. lia.
Qed.

(** X2 at the pixel (5, 7) of the 200 x 200 chip: the largest half-size
    is 5. *)
Lemma calcMaxBoxHalfSize_largest_square_witness :
  geom.contains (getBBox chip200) (squareAt 5 7 0) = true
  /\ exists m,
       _calcMaxBoxHalfSize (ofZ 5, ofZ 7) (getBBox chip200) = Ok m
       /\ 0 <= m
       /\ forall h, 0 <= h ->
            (geom.contains (getBBox chip200) (squareAt 5 7 h) = true
             <-> h <= m).
Proof.
  split; [reflexivity |].
  apply (calcMaxBoxHalfSize_largest_square 5 7 (getBBox chip200)).
  reflexivity.
Defined.


(** ** The cutout away from the edges *)

Lemma subArray_lookup {A : Type} (plane : Z -> Z -> A) (bbox : geom.Box2I)
    (r : nat) :
  Z.of_nat r < geom.getHeight bbox ->
  subArray plane bbox !! r
  = Some ((fun x => plane x (geom.getBeginY bbox + Z.of_nat r))
            <$> seqZ (geom.getBeginX bbox) (geom.getWidth bbox)).
Proof.
  intros Hr. unfold subArray.
  rewrite list_lookup_fmap, lookup_seqZ_lt by assumption. reflexivity.
Qed.

Lemma subArray_at2 (plane : Z -> Z -> Q) (bbox : geom.Box2I) (r c : nat) :
  Z.of_nat r < geom.getHeight bbox ->
  Z.of_nat c < geom.getWidth bbox ->
  at2 (subArray plane bbox) (r, c)
  = Some (plane (geom.getBeginX bbox + Z.of_nat c)
            (geom.getBeginY bbox + Z.of_nat r)).
Proof.
  intros Hr Hc. unfold at2. cbn [fst snd].
  rewrite subArray_lookup by assumption. cbn [mbind option_bind].
  rewrite list_lookup_fmap, lookup_seqZ_lt by assumption. reflexivity.
Qed.

Lemma length_subArray {A : Type} (plane : Z -> Z -> A) (bbox : geom.Box2I) :
  length (subArray plane bbox) = Z.to_nat (geom.getHeight bbox).
Proof. unfold subArray. rewrite length_fmap, length_seqZ. reflexivity. Qed.

Lemma subArray_rows {A : Type} (plane : Z -> Z -> A) (bbox : geom.Box2I)
    (row : list A) :
  row ∈ subArray plane bbox -> length row = Z.to_nat (geom.getWidth bbox).
Proof.
  unfold subArray. intros Hrow.
  apply list_elem_of_fmap in Hrow as (y & -> & _).
  rewrite length_fmap, length_seqZ. reflexivity.
Qed.

Lemma shape_subArray (plane : Z -> Z -> Q) (bbox : geom.Box2I) :
  0 < geom.getHeight bbox ->
  shape (subArray plane bbox)
  = (Z.to_nat (geom.getHeight bbox), Z.to_nat (geom.getWidth bbox)).
Proof.
  intros Hh. unfold shape. rewrite length_subArray. f_equal.
  rewrite head_lookup, (subArray_lookup plane bbox 0) by lia.
  simpl. rewrite length_fmap, length_seqZ. reflexivity.
Qed.

(** The square of half-size [h] around a pixel that is [h] pixels or more
    from every edge lies inside the chip. *)
Lemma squareAt_inside (chip : geom.Box2I) (x y h : Z) :
  0 <= h ->
  h <= x - geom.getBeginX chip ->
  h <= geom.getEndX chip - x - 1 ->
  h <= geom.getEndY chip - y - 1 ->
  h <= y - geom.getBeginY chip ->
  geom.contains chip (squareAt x y h) = true.
Proof. intros. unfold squareAt. unfold_geom. lia. Qed.

(** [getStarBoxData] for a centroid that is [boxHalfSize] pixels or more
    from every edge. *)
Lemma getStarBoxData_fits (st : ImageExaminer) (x y : Z) (fuel : nat) :
  geom.Point2I (centroid st) = Ok (x, y) ->
  0 <= boxHalfSize st ->
  boxHalfSize st <= x - geom.getBeginX (getBBox (exp st)) ->
  boxHalfSize st <= geom.getEndX (getBBox (exp st)) - x - 1 ->
  boxHalfSize st <= geom.getEndY (getBBox (exp st)) - y - 1 ->
  boxHalfSize st <= y - geom.getBeginY (getBBox (exp st)) ->
  getStarBoxData (S fuel) st
  = Ok (subArray (image (exp st)) (squareAt x y (boxHalfSize st)),
        set_nSatPixInBox
          (countPixels (subArray (mask (exp st)) (squareAt x y (boxHalfSize st)))
             (getPlaneBitMask (exp st) "SAT"))
          (set_starBbox (squareAt x y (boxHalfSize st)) st)).
Proof.
  intros Hp Hh H1 H2 H3 H4.
  unfold getStarBoxData, bindM, self, assign.
  rewrite (calcBbox_fits st (centroid st) x y fuel) by (assumption || lia).
  cbn [exp set_starBbox]. unfold lift, subImage.
  rewrite squareAt_inside by assumption.
  reflexivity.
Qed.

(** X4.  For a centroid whose pixel (x, y) is [boxHalfSize] pixels or more
    from every edge of the chip, [getStarBoxData] returns a cutout of
    [2*boxHalfSize + 1] rows of [2*boxHalfSize + 1] pixels; its row [r],
    column [c] is the pixel [(x - boxHalfSize + c, y - boxHalfSize + r)] of
    the image, so that the centroid pixel is at row and column
    [boxHalfSize]; the box is recorded in [starBbox] and the half-size,
    the centroid and the printed messages are as before. *)
Theorem getStarBoxData_centred_cutout (st : ImageExaminer) (x y : Z)
    (fuel : nat) :
  geom.Point2I (centroid st) = Ok (x, y) ->
  0 <= boxHalfSize st ->
  boxHalfSize st <= x - geom.getBeginX (getBBox (exp st)) ->
  boxHalfSize st <= geom.getEndX (getBBox (exp st)) - x - 1 ->
  boxHalfSize st <= geom.getEndY (getBBox (exp st)) - y - 1 ->
  boxHalfSize st <= y - geom.getBeginY (getBBox (exp st)) ->
  exists d st',
    getStarBoxData (S fuel) st = Ok (d, st')
    /\ shape d = (Z.to_nat (2 * boxHalfSize st + 1),
                  Z.to_nat (2 * boxHalfSize st + 1))
    /\ (forall row, row ∈ d ->
          length row = Z.to_nat (2 * boxHalfSize st + 1))
    /\ (forall r c : nat,
          Z.of_nat r <= 2 * boxHalfSize st ->
          Z.of_nat c <= 2 * boxHalfSize st ->
          at2 d (r, c)
          = Some (image (exp st) (x - boxHalfSize st + Z.of_nat c)
                    (y - boxHalfSize st + Z.of_nat r)))
    /\ at2 d (Z.to_nat (boxHalfSize st), Z.to_nat (boxHalfSize st))
       = Some (image (exp st) x y)
    /\ starBbox st' = squareAt x y (boxHalfSize st)
    /\ boxHalfSize st' = boxHalfSize st
    /\ centroid st' = centroid st
    /\ trace st' = trace st.
Proof.
  intros Hp Hh H1 H2 H3 H4.
  eexists _, _. split; [apply getStarBoxData_fits; eassumption |].
  set (h := boxHalfSize st) in *.
  assert (Hat : forall r c : nat,
            Z.of_nat r <= 2 * h -> Z.of_nat c <= 2 * h ->
            at2 (subArray (image (exp st)) (squareAt x y h)) (r, c)
            = Some (image (exp st) (x - h + Z.of_nat c) (y - h + Z.of_nat r))).
  { intros r c Hr Hc. rewrite subArray_at2; [reflexivity | |];
      unfold squareAt; unfold_geom; lia. }
  split.
  { rewrite shape_subArray; [reflexivity |].
    unfold squareAt; unfold_geom; lia. }
  split.
  { intros row Hrow. apply subArray_rows in Hrow. exact Hrow. }
  split; [exact Hat |].
  split.
  { rewrite Hat by lia. f_equal. f_equal; lia. }
  repeat split; reflexivity.
Qed.

(** X4 at the middle of the 200 x 200 chip with half-size 50. *)
Lemma getStarBoxData_centred_cutout_witness :
  let st := blank chip200 true 50 (ofZ 100, ofZ 100) in
  exists d st',
    getStarBoxData 1 st = Ok (d, st')
    /\ shape d = (101%nat, 101%nat)
    /\ at2 d (50%nat, 50%nat) = Some (image chip200 100 100)
    /\ starBbox st' = squareAt 100 100 50.
Proof.
  intros st.
  destruct (getStarBoxData_centred_cutout st 100 100 0)
    as (d & st' & Hrun & Hshape & _ & _ & Hmid & Hbox & _);
    [reflexivity | subst st; cbn; unfold_geom; lia ..|].
  exists d, st'. repeat split; assumption.
Defined.

(** ** The slices through the centroid *)

Lemma np_index_inside (n : nat) (i : Z) :
  0 <= i < Z.of_nat n -> np_index n i = Ok (Z.to_nat i).
Proof.
  intros Hi. unfold np_index.
  destruct ((0 <=? i) && (i <? Z.of_nat n)) eqn:E; [reflexivity | lia].
Qed.

(** The values [f 0 .. f (n-1)] of a list built over the positions are
    those of [g] over the integers from [m]. *)
Lemma fmap_seq_seqZ {A : Type} (f : nat -> A) (g : Z -> A) (m : Z) (n : nat) :
  (forall i : nat, (i < n)%nat -> f i = g (m + Z.of_nat i)) ->
  f <$> seq 0 n = g <$> seqZ m (Z.of_nat n).
Proof.
  intros Hfg. apply list_eq. intros i.
  rewrite !list_lookup_fmap.
  destruct (decide (i < n)%nat) as [Hi | Hi].
  - rewrite lookup_seq_lt, lookup_seqZ_lt by lia. cbn. f_equal. apply Hfg, Hi.
  - rewrite lookup_seq_ge, lookup_seqZ_ge by lia. reflexivity.
Qed.

(** X5.  After [getStarBoxData] for a centroid whose pixel (x, y) is
    [boxHalfSize] pixels or more from every edge, [plotRowColSlices] on
    the cutout draws the row of the image through the centroid pixel, from
    [x - boxHalfSize] to [x + boxHalfSize], and the column through it,
    from [y - boxHalfSize] to [y + boxHalfSize], against the abscissae
    [-boxHalfSize .. boxHalfSize]; the three series have the same
    length. *)
Theorem plotRowColSlices_through_centroid (st : ImageExaminer) (x y : Z)
    (fuel : nat) :
  geom.Point2I (centroid st) = Ok (x, y) ->
  0 <= boxHalfSize st ->
  boxHalfSize st <= x - geom.getBeginX (getBBox (exp st)) ->
  boxHalfSize st <= geom.getEndX (getBBox (exp st)) - x - 1 ->
  boxHalfSize st <= geom.getEndY (getBBox (exp st)) - y - 1 ->
  boxHalfSize st <= y - geom.getBeginY (getBBox (exp st)) ->
  exists d st' xs rowSlice colSlice,
    getStarBoxData (S fuel) st = Ok (d, st')
    /\ plotRowColSlices (set_data d st') = Ok (xs, rowSlice, colSlice)
    /\ xs = seqZ (- boxHalfSize st) (2 * boxHalfSize st + 1)
    /\ rowSlice = (fun x' => image (exp st) x' y)
                    <$> seqZ (x - boxHalfSize st) (2 * boxHalfSize st + 1)
    /\ colSlice = (fun y' => image (exp st) x y')
                    <$> seqZ (y - boxHalfSize st) (2 * boxHalfSize st + 1)
    /\ length rowSlice = length xs
    /\ length colSlice = length xs.
Proof.
  intros Hp Hh H1 H2 H3 H4.
  eexists _, _, _, _, _. split; [apply getStarBoxData_fits; eassumption |].
  set (h := boxHalfSize st) in *.
  set (d := subArray (image (exp st)) (squareAt x y h)).
  assert (Hshape : shape d = (Z.to_nat (2 * h + 1), Z.to_nat (2 * h + 1))).
  { unfold d. rewrite shape_subArray; [reflexivity |].
    unfold squareAt; unfold_geom; lia. }
  assert (Hat : forall r c : nat,
            Z.of_nat r <= 2 * h -> Z.of_nat c <= 2 * h ->
            getitem d r c
            = image (exp st) (x - h + Z.of_nat c) (y - h + Z.of_nat r)).
  { intros r c Hr Hc. unfold getitem, d.
    rewrite subArray_at2; [reflexivity | |];
      unfold squareAt; unfold_geom; lia. }
  assert (Hrow : (fun j => getitem d (Z.to_nat h) j)
                   <$> seq 0 (Z.to_nat (2 * h + 1))
                 = (fun x' => image (exp st) x' y)
                     <$> seqZ (x - h) (2 * h + 1)).
  { rewrite <- (Z2Nat.id (2 * h + 1)) at 2 by lia.
    apply fmap_seq_seqZ. intros i Hi.
    rewrite Hat by lia. f_equal. lia. }
  assert (Hcol : (fun i => getitem d i (Z.to_nat h))
                   <$> seq 0 (Z.to_nat (2 * h + 1))
                 = (fun y' => image (exp st) x y')
                     <$> seqZ (y - h) (2 * h + 1)).
  { rewrite <- (Z2Nat.id (2 * h + 1)) at 2 by lia.
    apply fmap_seq_seqZ. intros i Hi.
    rewrite Hat by lia. f_equal. lia. }
  split.
  { unfold plotRowColSlices, rowAt, colAt.
    cbn [data boxHalfSize set_data set_nSatPixInBox set_starBbox].
    fold h. fold d. rewrite Hshape. cbn [fst snd].
    rewrite np_index_inside by lia. cbn [bindR].
    rewrite Hrow, Hcol. reflexivity. }
  split.
  { unfold range. f_equal; lia. }
  split; [reflexivity |].
  split; [reflexivity |].
  unfold range. rewrite !length_fmap, !length_seqZ. split; f_equal; lia.
Qed.

(** X5 at the middle of the 200 x 200 chip with half-size 2. *)
Lemma plotRowColSlices_through_centroid_witness :
  let st := blank chip200 true 2 (ofZ 100, ofZ 100) in
  exists d st' xs rowSlice colSlice,
    getStarBoxData 1 st = Ok (d, st')
    /\ plotRowColSlices (set_data d st') = Ok (xs, rowSlice, colSlice)
    /\ xs = [-2; -1; 0; 1; 2]
    /\ length rowSlice = 5%nat
    /\ length colSlice = 5%nat.
Proof.
  intros st.
  destruct (plotRowColSlices_through_centroid st 100 100 0)
    as (d & st' & xs & rowSlice & colSlice & Hrun & Hplot & Hxs & _ & _
        & Hr & Hc);
    [reflexivity | subst st; cbn; unfold_geom; lia ..|].
  exists d, st', xs, rowSlice, colSlice.
  assert (Hlen : length xs = 5%nat) by (rewrite Hxs; reflexivity).
  repeat split; try assumption; congruence.
Defined.

(** Near a corner of the chip the cutout that [_calcBbox] accepts is not
    the square of [boxHalfSize]: with the centroid at (5, 5) and a
    half-size of 50 the cutout has 56 rows, the slice through
    [boxHalfSize] is the row of the image at y = 50 and not the row
    through the centroid, and it has 56 values against 101 abscissae. *)
Example plotRowColSlices_corner :
  let st := blank chip200 true 50 (ofZ 5, ofZ 5) in
  exists d st' xs rowSlice colSlice,
    getStarBoxData 2 st = Ok (d, st')
    /\ boxHalfSize st' = 50
    /\ shape d = (56%nat, 56%nat)
    /\ plotRowColSlices (set_data d st') = Ok (xs, rowSlice, colSlice)
    /\ length xs = 101%nat
    /\ length rowSlice = 56%nat
    /\ length colSlice = 56%nat.
Proof.
  intros st. eexists _, _, _, _, _.
  split; [vm_compute; reflexivity |].
  split; [reflexivity |].
  split; [vm_compute; reflexivity |].
  split; [vm_compute; reflexivity |].
  split; [vm_compute; reflexivity |].
  split; vm_compute; reflexivity.
Qed.

(** ** All the positions of the maximum *)






(** ** The statistics of the whole image *)








Section ImageStats.

Variable externalStat : Exposure -> string -> Value.


End ImageStats.


(** On that chip the maximum, 50, is at one pixel only and the attribute
    [multipleMaxPixels] is true. *)
Example getImageStats_starChip :
  match getImageStats metadata starChip with
  | Ok stats =>
      Some (stats !! "maxValue", stats !! "maxPixelLocation",
            stats !! "multipleMaxPixels")
  | _ => None
  end
  = Some (Some (VNum (Fin 50)), Some (VIndex (4%nat, 4%nat)),
          Some (VBool true)).
Proof. vm_compute. reflexivity. Qed.

(** ** The statistics that [radialAverageAndFit] records *)

Section FitStats.

Variable curve_fit : list radius -> list Q -> Q * Q * Q -> Result (Q * Q * Q).

(** A run of [radialAverageAndFit] that returns, taken apart: the initial
    guess of the fit, the statistics after the fit or after its handler,
    the three radii, and the attributes of the object that the run leaves
    alone. *)
Lemma radialAverageAndFit_inv (st st' : ImageExaminer) :
  radialAverageAndFit curve_fit st = Ok (tt, st') ->
  exists amp fitted r50 r80 r90,
    np_max (radialSamples (data st)).2 = Ok amp
    /\ ((exists pars,
           curve_fit (radialSamples (data st)).1 (radialSamples (data st)).2
             (amp, 0%Q, 10%Q) = Ok pars
           /\ fitted
              = <["fitFwhm" := VFwhm (Qabs pars.2)]>
                  (<["fitGausMean" := VNum (Fin pars.1.2)]>
                     (<["fitAmp" := VNum (Fin (Qabs pars.1.1))]>
                        (imStats st))))
        \/ ((curve_fit (radialSamples (data st)).1 (radialSamples (data st)).2
               (amp, 0%Q, 10%Q) = RecursionError
             \/ exists msg,
                  curve_fit (radialSamples (data st)).1
                    (radialSamples (data st)).2 (amp, 0%Q, 10%Q)
                  = Raise (RuntimeError msg))
            /\ fitted
               = <["fitFwhm" := VNum NaN]>
                   (<["fitMean" := VNum NaN]>
                      (<["fitAmp" := VNum NaN]> (imStats st)))))
    /\ imStats st'
       = <["eeRadius90" := VDist r90]>
           (<["eeRadius80" := VDist r80]>
              (<["eeRadius50" := VDist r50]> fitted))
    /\ getEncircledEnergyRadius 50 st' = Ok r50
    /\ getEncircledEnergyRadius 80 st' = Ok r80
    /\ getEncircledEnergyRadius 90 st' = Ok r90
    /\ st' = set_imStats (imStats st')
               (set_table (radii st') (cumFluxes st') (cumFluxesNorm st')
                  (set_radial (radialDistances st') (radialValues st') st)).
Proof.
  unfold radialAverageAndFit. unfold bindM at 1, self at 1.
  unfold bindM at 1, lift at 1.
  destruct (np_max (radialSamples (data st)).2) as [amp | |] eqn:Eamp;
    try discriminate.
  unfold bindM at 1, fitGauss at 1.
  destruct (curve_fit _ _ _) as [pars | ex |] eqn:Ecf;
    [| destruct ex; try discriminate |];
    unfold bindM, setStat, assign, ret, lift;
    (destruct (np_max (cumsum _)) as [m | |] eqn:Em; try discriminate);
    (destruct (getEncircledEnergyRadius 50 _) as [r50 | |] eqn:E50;
       try discriminate);
    (destruct (getEncircledEnergyRadius 80 _) as [r80 | |] eqn:E80;
       try discriminate);
    (destruct (getEncircledEnergyRadius 90 _) as [r90 | |] eqn:E90;
       try discriminate);
    intros [= <-];
    exists amp; eexists; exists r50, r80, r90;
    (split; [reflexivity |]);
    (split; [| split; [reflexivity |];
               split; [exact E50 |]; split; [exact E80 |];
               split; [exact E90 | reflexivity]]).
  - left. exists pars. split; [exact Ecf | reflexivity].
  - right. split; [right; eexists; exact Ecf | reflexivity].
  - right. split; [left; exact Ecf | reflexivity].
Qed.

End FitStats.

Section FitRuns.

Variable curve_fit : list radius -> list Q -> Q * Q * Q -> Result (Q * Q * Q).

Lemma samplesOf_nonempty_values (d : Array) :
  samplesOf d <> [] <-> (radialSamples d).2 <> [].
Proof.
  rewrite <- samplesOf_snd. split.
  - apply fmap_nonempty.
  - intros Hne Hnil. rewrite Hnil in Hne. apply Hne. reflexivity.
Qed.

(** A run of [radialAverageAndFit] returns when there are samples and the
    fit returns or raises a [RuntimeError]. *)
Lemma radialAverageAndFit_returns (st : ImageExaminer) (amp : Q) :
  np_max (radialSamples (data st)).2 = Ok amp ->
  (forall e,
     curve_fit (radialSamples (data st)).1 (radialSamples (data st)).2
       (amp, 0%Q, 10%Q) = Raise e -> exists msg, e = RuntimeError msg) ->
  exists st', radialAverageAndFit curve_fit st = Ok (tt, st').
Proof.
  intros Hamp Hcf.
  assert (Hne : samplesOf (data st) <> []).
  { intros Hnil. rewrite <- samplesOf_snd, Hnil in Hamp. discriminate. }
  assert (Hcum : cumsum (sorted (samplesOf (data st))).*2 <> []).
  { apply cumsum_nonempty, fmap_nonempty, sorted_nonempty, Hne. }
  destruct (np_max_nonempty _ Hcum) as [m Hm].
  unfold radialAverageAndFit. unfold bindM at 1, self at 1.
  unfold bindM at 1, lift at 1. rewrite Hamp.
  unfold bindM at 1, fitGauss at 1.
  fold (samplesOf (data st)).
  destruct (curve_fit _ _ _) as [pars | ex |] eqn:Ecf;
    [| destruct (Hcf ex eq_refl) as [msg ->] |];
    unfold bindM, setStat, assign, ret, lift;
    rewrite Hm;
    repeat match goal with
    | |- context [getEncircledEnergyRadius ?p ?s] =>
        let r := fresh "r" in
        let H := fresh "H" in
        destruct (getEncircledEnergyRadius_total p s) as [r H];
          [cbn; rewrite !length_fmap, length_cumsum, length_fmap; reflexivity
          | cbn; apply fmap_nonempty, Hcum
          | rewrite H; cbn beta iota]
    end;
    eexists; reflexivity.
Qed.

(** X8.  When the fit returns the parameters (a, mu, sigma) for the
    initial guess (greatest sample value, 0, 10), [radialAverageAndFit]
    returns and has recorded [fitAmp] = |a|, [fitGausMean] = mu and
    [fitFwhm] = |sigma| * SIGMATOFWHM; these are then the parameters that
    [plotRadialAverage] reads, and no attribute [fitMean] is written. *)
Theorem fit_success_recorded (st : ImageExaminer) (amp a mu sigma : Q) :
  np_max (radialSamples (data st)).2 = Ok amp ->
  curve_fit (radialSamples (data st)).1 (radialSamples (data st)).2
    (amp, 0%Q, 10%Q) = Ok (a, mu, sigma) ->
  exists st',
    radialAverageAndFit curve_fit st = Ok (tt, st')
    /\ imStats st' !! "fitAmp" = Some (VNum (Fin (Qabs a)))
    /\ imStats st' !! "fitGausMean" = Some (VNum (Fin mu))
    /\ imStats st' !! "fitFwhm" = Some (VFwhm (Qabs sigma))
    /\ imStats st' !! "fitMean" = imStats st !! "fitMean"
    /\ plotRadialAverage_pars st'
       = Ok (VNum (Fin (Qabs a)), VNum (Fin mu), VFwhm (Qabs sigma))
    /\ missingFields (imStats st') cutoutMappings
       = missingFields (imStats st) [("nStatPixInBox", "nSat in cutout")].
Proof.
  intros Hamp Hcf.
  destruct (radialAverageAndFit_returns st amp Hamp) as [st' Hrun].
  { intros e He. rewrite Hcf in He. discriminate. }
  exists st'. split; [exact Hrun |].
  apply radialAverageAndFit_inv in Hrun
    as (amp' & fitted & r50 & r80 & r90 & Hamp' & Hfit & Hstats & _).
  rewrite Hamp in Hamp'. injection Hamp' as <-.
  destruct Hfit as [(pars & Hpars & ->) | [[Hrec | [msg Hmsg]] _]];
    [| rewrite Hcf in Hrec; discriminate | rewrite Hcf in Hmsg; discriminate].
  rewrite Hcf in Hpars. injection Hpars as <-. cbn [fst snd] in Hstats.
  assert (H1 : imStats st' !! "fitAmp" = Some (VNum (Fin (Qabs a))))
    by (rewrite Hstats; simplify_map_eq; reflexivity).
  assert (H2 : imStats st' !! "fitGausMean" = Some (VNum (Fin mu)))
    by (rewrite Hstats; simplify_map_eq; reflexivity).
  assert (H3 : imStats st' !! "fitFwhm" = Some (VFwhm (Qabs sigma)))
    by (rewrite Hstats; simplify_map_eq; reflexivity).
  assert (H4 : imStats st' !! "fitMean" = imStats st !! "fitMean")
    by (rewrite Hstats; simplify_map_eq; reflexivity).
  repeat (split; [assumption |]).
  split.
  - unfold plotRadialAverage_pars, getattr. rewrite H1, H2, H3. reflexivity.
  - assert (H0 : imStats st' !! "nStatPixInBox" = imStats st !! "nStatPixInBox")
      by (rewrite Hstats; simplify_map_eq; reflexivity).
    assert (H5 : imStats st' !! "eeRadius50" = Some (VDist r50))
      by (rewrite Hstats; simplify_map_eq; reflexivity).
    assert (H6 : imStats st' !! "eeRadius80" = Some (VDist r80))
      by (rewrite Hstats; simplify_map_eq; reflexivity).
    assert (H7 : imStats st' !! "eeRadius90" = Some (VDist r90))
      by (rewrite Hstats; simplify_map_eq; reflexivity).
    unfold missingFields, cutoutMappings.
    rewrite !filter_cons, filter_nil. cbn [fst].
    rewrite H0, H1, H2, H3, H5, H6, H7.
    destruct (imStats st !! "nStatPixInBox"); reflexivity.
Qed.

End FitRuns.

(** X8 on the 5 x 5 star with a fit that returns its initial guess. *)
Lemma fit_success_recorded_witness :
  let st := withCutout star5 0 in
  np_max (radialSamples (data st)).2 = Ok 9%Q
  /\ fitReturns (radialSamples (data st)).1 (radialSamples (data st)).2
       (9%Q, 0%Q, 10%Q) = Ok (9%Q, 0%Q, 10%Q)
  /\ exists st',
       radialAverageAndFit fitReturns st = Ok (tt, st')
       /\ imStats st' !! "fitAmp" = Some (VNum (Fin (Qabs 9)))
       /\ imStats st' !! "fitGausMean" = Some (VNum (Fin 0))
       /\ imStats st' !! "fitFwhm" = Some (VFwhm (Qabs 10)).
Proof.
  intros st.
  assert (Hamp : np_max (radialSamples (data st)).2 = Ok 9%Q)
    by (vm_compute; reflexivity).
  split; [exact Hamp |]. split; [reflexivity |].
  destruct (fit_success_recorded fitReturns st 9 9 0 10 Hamp eq_refl)
    as (st' & Hrun & H1 & H2 & H3 & _).
  exists st'. repeat split; assumption.
Defined.

(** ** When [radialAverageAndFit] raises *)

(** X9.  [radialAverageAndFit] returns exactly when the cutout gives at
    least one sample and the fit does not raise anything but a
    [RuntimeError].  Without samples it raises the [ValueError] of
    [np.max] before the fit is called; an exception of the fit that is not
    a [RuntimeError] is the exception of the run. *)
Theorem radialAverageAndFit_raises
    (curve_fit : list radius -> list Q -> Q * Q * Q -> Result (Q * Q * Q))
    (st : ImageExaminer) :
  ((exists st', radialAverageAndFit curve_fit st = Ok (tt, st'))
   <-> samplesOf (data st) <> []
       /\ forall amp e,
            np_max (radialSamples (data st)).2 = Ok amp ->
            curve_fit (radialSamples (data st)).1 (radialSamples (data st)).2
              (amp, 0%Q, 10%Q) = Raise e ->
            exists msg, e = RuntimeError msg)
  /\ (samplesOf (data st) = [] ->
      radialAverageAndFit curve_fit st
      = Raise (ValueError "zero-size array to reduction operation maximum"))
  /\ (forall amp e,
        np_max (radialSamples (data st)).2 = Ok amp ->
        curve_fit (radialSamples (data st)).1 (radialSamples (data st)).2
          (amp, 0%Q, 10%Q) = Raise e ->
        (forall msg, e <> RuntimeError msg) ->
        radialAverageAndFit curve_fit st = Raise e).
Proof.
  assert (Hempty : samplesOf (data st) = [] ->
            radialAverageAndFit curve_fit st
            = Raise (ValueError
                       "zero-size array to reduction operation maximum")).
  { intros Hnil. unfold radialAverageAndFit.
    unfold bindM at 1, self at 1. unfold bindM at 1, lift at 1.
    rewrite <- samplesOf_snd, Hnil. reflexivity. }
  assert (Hprop : forall amp e,
            np_max (radialSamples (data st)).2 = Ok amp ->
            curve_fit (radialSamples (data st)).1 (radialSamples (data st)).2
              (amp, 0%Q, 10%Q) = Raise e ->
            (forall msg, e <> RuntimeError msg) ->
            radialAverageAndFit curve_fit st = Raise e).
  { intros amp e Hamp Hcf Hnot. unfold radialAverageAndFit.
    unfold bindM at 1, self at 1. unfold bindM at 1, lift at 1.
    rewrite Hamp. unfold bindM at 1, fitGauss at 1. rewrite Hcf.
    destruct e; try reflexivity. exfalso. eapply Hnot. reflexivity. }
  split; [| split; assumption].
  split.
  - intros [st' Hrun]. split.
    + intros Hnil. rewrite (Hempty Hnil) in Hrun. discriminate.
    + intros amp e Hamp Hcf.
      destruct e as [msg | | | | | |]; [exists msg; reflexivity | ..];
        (erewrite Hprop in Hrun; [discriminate | exact Hamp | exact Hcf |];
         intros ?; discriminate).
  - intros [Hne Hcf].
    apply samplesOf_nonempty_values in Hne.
    destruct (np_max_nonempty _ Hne) as [amp Hamp].
    apply (radialAverageAndFit_returns curve_fit st amp Hamp).
    intros e He. exact (Hcf amp e Hamp He).
Qed.

(** ** Cutouts too small to sample *)

Lemma withinHalfSize_one_row (d : Array) (i j : nat) :
  ((shape d).1 <= 1)%nat -> (i < (shape d).1)%nat ->
  withinHalfSize d i j = false.
Proof.
  unfold withinHalfSize, pixelDist, norm, sq.
  destruct (shape d) as [xl yl]. cbn [fst snd]. intros Hxl Hi.
  assert (xl = 1%nat) by lia. assert (i = 0%nat) by lia. subst xl i.
  destruct (Qle_bool _ _) eqn:E; [exfalso | reflexivity].
  apply Qle_bool_iff in E. revert E.
  generalize (inject_Z (Z.of_nat j) - (Z.of_nat yl # 2))%Q. intros b.
  change (Z.of_nat 0) with 0. change (Z.of_nat 1) with 1.
  change (1 / 2 * (1 / 2)) with 0. change (inject_Z 0) with 0%Q. intros H.
  assert (0 <= b * b)%Q by nra.
  assert ((0 - (1 # 2)) * (0 - (1 # 2)) == 1 # 4)%Q by reflexivity.
  lra.
Qed.

Lemma samplesOf_one_row (d : Array) :
  ((shape d).1 <= 1)%nat -> samplesOf d = [].
Proof.
  intros Hxl. rewrite samplesOf_eq.
  rewrite (elem_of_nil_inv (filter _ _)); [reflexivity |].
  intros [i j] Hp. apply list_elem_of_filter in Hp as [Hw Hin].
  apply elem_of_pixels in Hin as [Hi Hj]. cbn [fst snd] in Hw.
  rewrite withinHalfSize_one_row in Hw by assumption. discriminate.
Qed.

Lemma half_square_bound (N kz : Z) :
  1 <= kz -> N = 2 * kz \/ N = 2 * kz + 1 ->
  ((inject_Z kz - (N # 2)) * (inject_Z kz - (N # 2))
   + (inject_Z kz - (N # 2)) * (inject_Z kz - (N # 2))
   <= inject_Z (kz * kz))%Q.
Proof.
  intros Hk HN. unfold Qle, Qplus, Qmult, Qminus, Qopp, inject_Z. cbn. nia.
Qed.

Lemma samplesOf_square (d : Array) (n : nat) :
  shape d = (n, n) -> (2 <= n)%nat ->
  sampleOf d (n / 2, n / 2)%nat ∈ samplesOf d.
Proof.
  intros Hshape Hn. rewrite samplesOf_eq.
  apply list_elem_of_fmap. exists (n / 2, n / 2)%nat.
  split; [reflexivity |]. apply list_elem_of_filter.
  assert (Hlt : (n / 2 < n)%nat) by (apply Nat.div_lt; lia).
  split; [| apply elem_of_pixels; rewrite Hshape; cbn [fst snd]; lia].
  cbn [fst snd]. unfold withinHalfSize, pixelDist, norm, sq.
  rewrite Hshape. cbn [fst snd]. apply Qle_bool_iff.
  rewrite Nat2Z.inj_div. change (Z.of_nat 2) with 2.
  apply half_square_bound.
  - apply Z.div_le_lower_bound; lia.
  - pose proof (Z.div_mod (Z.of_nat n) 2 ltac:(lia)) as Hdm.
    pose proof (Z.mod_pos_bound (Z.of_nat n) 2 ltac:(lia)) as Hm.
    lia.
Qed.

(** X10.  For a square cutout of side [n], the loops of
    [radialAverageAndFit] keep no pixel exactly when [n] is at most 1; in
    that case, which is the cutout of half-size 0, the run raises the
    [ValueError] of [np.max] whatever the fit does. *)
Theorem radialAverageAndFit_single_pixel
    (curve_fit : list radius -> list Q -> Q * Q * Q -> Result (Q * Q * Q))
    (st : ImageExaminer) (n : nat) :
  shape (data st) = (n, n) ->
  (samplesOf (data st) = [] <-> (n <= 1)%nat)
  /\ ((n <= 1)%nat ->
      radialAverageAndFit curve_fit st
      = Raise (ValueError "zero-size array to reduction operation maximum")).
Proof.
  intros Hshape.
  assert (Hsmall : (n <= 1)%nat -> samplesOf (data st) = []).
  { intros Hn. apply samplesOf_one_row. rewrite Hshape. exact Hn. }
  split.
  - split; [| exact Hsmall].
    intros Hnil. destruct (decide (n <= 1)%nat) as [Hn | Hn]; [exact Hn |].
    exfalso. pose proof (samplesOf_square (data st) n Hshape ltac:(lia)) as Hin.
    rewrite Hnil in Hin. inversion Hin.
  - intros Hn. unfold radialAverageAndFit.
    unfold bindM at 1, self at 1. unfold bindM at 1, lift at 1.
    rewrite <- samplesOf_snd, (Hsmall Hn). reflexivity.
Qed.

(** X10 on a cutout of one pixel. *)
Lemma radialAverageAndFit_single_pixel_witness :
  let st := withCutout [[7%Q]] 0 in
  shape (data st) = (1%nat, 1%nat)
  /\ samplesOf (data st) = []
  /\ radialAverageAndFit fitReturns st
     = Raise (ValueError "zero-size array to reduction operation maximum").
Proof.
  intros st.
  pose proof (radialAverageAndFit_single_pixel fitReturns st 1 eq_refl)
    as [Hiff Hraise].
  split; [reflexivity |].
  split; [apply Hiff; lia | apply Hraise; lia].
Defined.

(** A centroid on the first column of the chip: the box is shrunk to
    half-size 0, the cutout is the pixel of the centroid, and [__init__]
    raises that [ValueError]. *)
Example init_centroid_on_edge :
  __init__ fitReturns detectsNothing metadata 3 starChip true
    (Some (ofZ 0, ofZ 4)) 2
  = Raise (ValueError "zero-size array to reduction operation maximum")
  /\ __init__ fitReturns detectsNothing metadata 3 starChip false
       (Some (ofZ 0, ofZ 4)) 2
     = Raise (ValueError "zero-size array to reduction operation maximum").
Proof. split; vm_compute; reflexivity. Qed.
